(** * BudgetMate: ledger mutations and CSV import

    A shallow embedding of the transaction controller
    ([api/src/controllers/transaction.controller.ts]) and of the import
    controller ([controllers/import.controller]) over an explicit model of
    the relational store, followed by the properties of the ledger and of
    the import pipeline that the specification states about them.

    Conventions.
    - Prisma tables keyed by id are finite maps ([gmap string _]); the
      [import_rows] and [notifications] tables, where insertion order and
      repeated keys matter, are lists in insertion order.
    - Every handler is a function from the store to a response and the
      next store.  A [prisma.$transaction] block that throws leaves the
      store as it was.
    - JavaScript strings are byte strings (their UTF-8 encoding), numbers
      are exact rationals ([Qc]); [NaN] is [None].  Rounding and overflow
      of IEEE doubles are outside the model.
    - A CSV row is a finite map from header to cell; properties a
      JavaScript object inherits from its prototype are outside the model.
    - Store operations fail only where the model says so (a missing record
      on [update], the foreign key on accounts); outages are outside the
      model.
    - What JavaScript throws is a value: code that can throw returns what
      it threw or its result, next to the store it reached.  Outside a
      [prisma.$transaction] the writes made before a throw stay.
    - The background task of an import runs to its end in one step; the
      interleaving of concurrent requests is outside the model. *)

From Stdlib Require Import Ascii String ZArith QArith Qcanon Lia.
From stdpp Require Import gmap strings list fin_maps infinite pretty.

Open Scope Z_scope.

(** ** JavaScript values *)

Module JS.

(** Truthiness of a possibly-undefined string: [undefined], [null] and
    the empty string are falsy. *)
Definition truthy (o : option string) : bool :=
  match o with
  | Some s => negb (String.eqb s "")
  | None => false
  end.

(** [o || d] on possibly-undefined strings. *)
Definition or_else (o : option string) (d : string) : string :=
  match o with
  | Some s => if String.eqb s "" then d else s
  | None => d
  end.

(** The string that passes [if (o)], if it does. *)
Definition if_truthy (o : option string) : option string :=
  if truthy o then o else None.

(** [o || null]. *)
Definition or_null (o : option string) : option string := if_truthy o.

(** The property name a possibly-undefined key denotes: [row[undefined]]
    reads the property called ["undefined"]. *)
Definition prop_name (k : option string) : string :=
  default "undefined" k.

(** [Array.prototype.join]: [undefined] elements print as the empty
    string. *)
Fixpoint join (sep : string) (xs : list (option string)) : string :=
  match xs with
  | [] => ""
  | [x] => default "" x
  | x :: rest => default "" x +:+ sep +:+ join sep rest
  end.

Definition is_digit (c : ascii) : bool :=
  let n := N_of_ascii c in ((48 <=? n) && (n <=? 57))%N.

Definition digit_val (c : ascii) : Z := Z.of_N (N_of_ascii c) - 48.

(** [s.replace(/[^\d.-]/g, '')]: keep digits, ['.'] and ['-']. *)
Definition keep_amount_char (c : ascii) : bool :=
  is_digit c || Ascii.eqb c "." || Ascii.eqb c "-".

Fixpoint strip_amount (s : string) : string :=
  match s with
  | EmptyString => EmptyString
  | String c rest =>
      if keep_amount_char c then String c (strip_amount rest)
      else strip_amount rest
  end.

(** Longest prefix of decimal digits, and the rest. *)
Fixpoint span_digits (s : string) : list ascii * string :=
  match s with
  | String c rest =>
      if is_digit c
      then let '(ds, r) := span_digits rest in (c :: ds, r)
      else ([], s)
  | EmptyString => ([], EmptyString)
  end.

Definition digits_value (ds : list ascii) : Z :=
  foldl (fun acc c => 10 * acc + digit_val c) 0 ds.

(** [parseFloat] on the strings the import controller passes to it:
    after [strip_amount] only digits, ['.'] and ['-'] remain, so the
    longest prefix that is a [StrDecimalLiteral] is an optional ['-'],
    then digits with an optional fraction, or ['.'] and digits.  [None]
    is [NaN]: no such prefix exists. *)
Definition parseFloat (s : string) : option Qc :=
  let '(neg, body) :=
    match s with
    | String "-" rest => (true, rest)
    | _ => (false, s)
    end in
  let '(ip, rest1) := span_digits body in
  let fp :=
    match rest1 with
    | String "." rest2 => fst (span_digits rest2)
    | _ => []
    end in
  match ip, fp with
  | [], [] => None
  | _, _ =>
      let mant := digits_value (ip ++ fp) in
      let den := Z.to_pos (10 ^ Z.of_nat (length fp)) in
      Some (Q2Qc ((if neg then - mant else mant) # den))
  end.

End JS.

(** ** MD5 (RFC 1321), as [crypto.createHash('md5')] computes it *)

Module MD5.

Definition w32 (x : Z) : Z := x mod 2 ^ 32.

Definition rotl32 (x : Z) (n : Z) : Z :=
  w32 (Z.lor (Z.shiftl x n) (Z.shiftr x (32 - n))).

Definition not32 (x : Z) : Z := Z.lxor x 0xffffffff.

Definition K : list Z :=
  [ 0xd76aa478; 0xe8c7b756; 0x242070db; 0xc1bdceee;
    0xf57c0faf; 0x4787c62a; 0xa8304613; 0xfd469501;
    0x698098d8; 0x8b44f7af; 0xffff5bb1; 0x895cd7be;
    0x6b901122; 0xfd987193; 0xa679438e; 0x49b40821;
    0xf61e2562; 0xc040b340; 0x265e5a51; 0xe9b6c7aa;
    0xd62f105d; 0x02441453; 0xd8a1e681; 0xe7d3fbc8;
    0x21e1cde6; 0xc33707d6; 0xf4d50d87; 0x455a14ed;
    0xa9e3e905; 0xfcefa3f8; 0x676f02d9; 0x8d2a4c8a;
    0xfffa3942; 0x8771f681; 0x6d9d6122; 0xfde5380c;
    0xa4beea44; 0x4bdecfa9; 0xf6bb4b60; 0xbebfbc70;
    0x289b7ec6; 0xeaa127fa; 0xd4ef3085; 0x04881d05;
    0xd9d4d039; 0xe6db99e5; 0x1fa27cf8; 0xc4ac5665;
    0xf4292244; 0x432aff97; 0xab9423a7; 0xfc93a039;
    0x655b59c3; 0x8f0ccc92; 0xffeff47d; 0x85845dd1;
    0x6fa87e4f; 0xfe2ce6e0; 0xa3014314; 0x4e0811a1;
    0xf7537e82; 0xbd3af235; 0x2ad7d2bb; 0xeb86d391 ].

Definition S : list Z :=
  [ 7; 12; 17; 22; 7; 12; 17; 22; 7; 12; 17; 22; 7; 12; 17; 22;
    5; 9; 14; 20; 5; 9; 14; 20; 5; 9; 14; 20; 5; 9; 14; 20;
    4; 11; 16; 23; 4; 11; 16; 23; 4; 11; 16; 23; 4; 11; 16; 23;
    6; 10; 15; 21; 6; 10; 15; 21; 6; 10; 15; 21; 6; 10; 15; 21 ].

Definition bytes_of_string (s : string) : list Z :=
  (fun c => Z.of_N (N_of_ascii c)) <$> list_ascii_of_string s.

(** The 64-bit little-endian encoding of the bit length. *)
Definition le_bytes (n : nat) (x : Z) : list Z :=
  (fun i => Z.shiftr x (8 * Z.of_nat i) mod 256) <$> seq 0 n.

Definition pad (msg : list Z) : list Z :=
  let len := Z.of_nat (length msg) in
  msg ++ [0x80] ++ replicate (Z.to_nat ((55 - len) mod 64)) 0
      ++ le_bytes 8 (8 * len).

Fixpoint blocks (fuel : nat) (l : list Z) : list (list Z) :=
  match fuel, l with
  | Datatypes.S f, _ :: _ => take 64 l :: blocks f (drop 64 l)
  | _, _ => []
  end.

Definition le_word (bs : list Z) : Z :=
  foldr (fun b acc => b + 256 * acc) 0 bs.

Definition words (block : list Z) : list Z :=
  (fun i => le_word (take 4 (drop (4 * i) block))) <$> seq 0 16.

Record state := { sa : Z; sb : Z; sc : Z; sd : Z }.

Definition init : state :=
  {| sa := 0x67452301; sb := 0xefcdab89; sc := 0x98badcfe; sd := 0x10325476 |}.

Definition round (M : list Z) (st : state) (i : nat) : state :=
  let '(Build_state A B C D) := st in
  let iz := Z.of_nat i in
  let '(F, g) :=
    if (i <? 16)%nat then
      (Z.lor (Z.land B C) (Z.land (not32 B) D), iz)
    else if (i <? 32)%nat then
      (Z.lor (Z.land D B) (Z.land (not32 D) C), (5 * iz + 1) mod 16)
    else if (i <? 48)%nat then
      (Z.lxor (Z.lxor B C) D, (3 * iz + 5) mod 16)
    else
      (Z.lxor C (Z.lor B (not32 D)), (7 * iz) mod 16) in
  let F' := w32 (F + A + K !!! i + M !!! Z.to_nat g) in
  {| sa := D; sd := C; sc := B; sb := w32 (B + rotl32 F' (S !!! i)) |}.

Definition compress (st : state) (block : list Z) : state :=
  let r := foldl (round (words block)) st (seq 0 64) in
  {| sa := w32 (sa st + sa r); sb := w32 (sb st + sb r);
     sc := w32 (sc st + sc r); sd := w32 (sd st + sd r) |}.

Definition hex_digit (n : Z) : ascii :=
  ascii_of_N (Z.to_N (if n <? 10 then 48 + n else 87 + n)).

Definition hex_of_bytes (bs : list Z) : string :=
  string_of_list_ascii
    (bs ≫= fun b => [hex_digit (b / 16); hex_digit (b mod 16)]).

(** [createHash('md5').update(s).digest('hex')]. *)
Definition hexdigest (s : string) : string :=
  let p := pad (bytes_of_string s) in
  let r := foldl compress init (blocks (length p) p) in
  hex_of_bytes (le_bytes 4 (sa r) ++ le_bytes 4 (sb r)
                ++ le_bytes 4 (sc r) ++ le_bytes 4 (sd r)).

End MD5.

(** ** The store *)

(** HTTP responses: the status code with the id of the created entity, or
    with the error message the handler sends. *)
Inductive response :=
| Success (code : nat) (id : option string)
| Error (code : nat) (message : string).

Record account := {
  acc_user_id : string;
  balance : Qc
}.

Record transaction := {
  tx_user_id : string;
  tx_account_id : option string;
  tx_category_id : option string;
  tx_amount : Qc;
  tx_type : string;
  tx_description : option string;
  tx_date : Z;
  tx_mode : option string;
  tx_reference : option string;
  tx_notes : option string
}.

(** The column mapping accepted by [columnMappingSchema]. *)
Record ColumnMapping := {
  m_date : string;
  m_amount : string;
  m_description : string;
  m_type : option string;
  m_category : option string;
  m_account : option string;
  m_reference : option string
}.

Module JobStatus.
Inductive t := pending | configured | processing | completed | failed.
End JobStatus.

Module RowStatus.
Inductive t := duplicate | failed | processed.
End RowStatus.

Record import_job := {
  job_user_id : string;
  filename : string;
  total_rows : nat;
  status : JobStatus.t;
  preview_data : list (gmap string string);
  mapping_data : option ColumnMapping;
  processed_rows : nat;
  successful_rows : nat;
  failed_rows : nat;
  error_log : option string;
  completed_at : option Z
}.

Record import_row := {
  import_job_id : string;
  row_number : nat;
  idempotency_key : string;
  raw_data : gmap string string;
  mapped_data : option (Qc * string * Z);
  transaction_id : option string;
  row_status : RowStatus.t;
  error_message : option string
}.

Record notification := {
  n_user_id : string;
  n_type : string;
  n_title : string;
  n_message : string;
  n_jobId : string;
  n_successCount : nat;
  n_failureCount : nat
}.

(** The database.  Whether it enforces the foreign key from
    [transactions.account_id] to [accounts] is decided by the Prisma
    schema, not by the controllers; it is a parameter of the store,
    [account_fk]. *)
Record Store := {
  account_fk : bool;
  accounts : gmap string account;
  transactions : gmap string transaction;
  import_jobs : gmap string import_job;
  import_rows : list import_row;
  notifications : list notification
}.

Definition set_accounts (st : Store) (m : gmap string account) : Store :=
  {| account_fk := account_fk st; accounts := m;
     transactions := transactions st; import_jobs := import_jobs st;
     import_rows := import_rows st; notifications := notifications st |}.

Definition set_transactions (st : Store) (m : gmap string transaction) : Store :=
  {| account_fk := account_fk st; accounts := accounts st;
     transactions := m; import_jobs := import_jobs st;
     import_rows := import_rows st; notifications := notifications st |}.

Definition set_import_jobs (st : Store) (m : gmap string import_job) : Store :=
  {| account_fk := account_fk st; accounts := accounts st;
     transactions := transactions st; import_jobs := m;
     import_rows := import_rows st; notifications := notifications st |}.

Definition add_import_row (st : Store) (r : import_row) : Store :=
  {| account_fk := account_fk st; accounts := accounts st;
     transactions := transactions st; import_jobs := import_jobs st;
     import_rows := import_rows st ++ [r]; notifications := notifications st |}.

Definition add_notification (st : Store) (n : notification) : Store :=
  {| account_fk := account_fk st; accounts := accounts st;
     transactions := transactions st; import_jobs := import_jobs st;
     import_rows := import_rows st; notifications := notifications st ++ [n] |}.

(** [tx.accounts.update({ where: { id }, data: { balance: { increment } } })]:
    throws ([None]) when no account has that id. *)
Definition increment_balance (st : Store) (id : string) (delta : Qc) : option Store :=
  match accounts st !! id with
  | Some a =>
      Some (set_accounts st
              (<[id := {| acc_user_id := acc_user_id a;
                          balance := (balance a + delta)%Qc |}]> (accounts st)))
  | None => None
  end.

(** The foreign-key check on a row about to be written with account
    reference [a]. *)
Definition fk_ok (st : Store) (a : option string) : bool :=
  match a with
  | Some id => negb (account_fk st) || bool_decide (is_Some (accounts st !! id))
  | None => true
  end.

(** The id the database gives a new transaction (a [uuid()] default):
    some id not in use. *)
Definition new_transaction_id (st : Store) : string :=
  fresh (dom (transactions st)).

Definition new_job_id (st : Store) : string :=
  fresh (dom (import_jobs st)).

(** ** Transaction controller *)

(** [type === 'income' ? Number(amount) : -Number(amount)]. *)
Definition balanceChange (type : string) (amount : Qc) : Qc :=
  if String.eqb type "income" then amount else (- amount)%Qc.

(** Request body of [POST /transactions]. *)
Record create_body := {
  c_account_id : option string;
  c_category_id : option string;
  c_amount : Qc;
  c_type : string;
  c_description : option string;
  c_tx_date : option Z;
  c_mode : option string;
  c_reference : option string;
  c_notes : option string
}.

(** Request body of [PUT /transactions/:id]: every field may be absent
    ([None]); the two references may also be [null] ([Some None]). *)
Record update_body := {
  u_account_id : option (option string);
  u_category_id : option (option string);
  u_amount : option Qc;
  u_type : option string;
  u_description : option string;
  u_tx_date : option Z;
  u_mode : option string;
  u_reference : option string;
  u_notes : option string
}.

(** The rules of [createTransactionSchema] and [updateTransactionSchema] on
    amount and type. *)
Definition valid_type (t : string) : bool :=
  String.eqb t "income" || String.eqb t "expense".

Definition createTransactionSchema (b : create_body) : bool :=
  bool_decide (0 < c_amount b)%Qc && valid_type (c_type b).

Definition updateTransactionSchema (b : update_body) : bool :=
  match u_amount b with Some a => bool_decide (0 < a)%Qc | None => true end
  && match u_type b with Some t => valid_type t | None => true end.

Definition createTransaction (st : Store) (userId : string) (now : Z)
    (b : create_body) : response * Store :=
  let id := new_transaction_id st in
  let unit : option Store :=
    if fk_ok st (c_account_id b) then
      let st1 :=
        set_transactions st
          (<[id := {| tx_user_id := userId;
                      tx_account_id := c_account_id b;
                      tx_category_id := c_category_id b;
                      tx_amount := c_amount b;
                      tx_type := c_type b;
                      tx_description := c_description b;
                      tx_date := default now (c_tx_date b);
                      tx_mode := Some (JS.or_else (c_mode b) "cash");
                      tx_reference := c_reference b;
                      tx_notes := c_notes b |}]> (transactions st)) in
      match JS.if_truthy (c_account_id b) with
      | Some account_id =>
          match accounts st1 !! account_id with
          | Some _ =>
              increment_balance st1 account_id
                (balanceChange (c_type b) (c_amount b))
          | None => Some st1
          end
      | None => Some st1
      end
    else None in
  match unit with
  | Some st' => (Success 201 (Some id), st')
  | None => (Error 500 "Failed to create transaction", st)
  end.

(** [tx.transactions.update({ where: { id }, data })]: absent fields keep
    their stored value. *)
Definition apply_update (old : transaction) (b : update_body) : transaction :=
  {| tx_user_id := tx_user_id old;
     tx_account_id := default (tx_account_id old) (u_account_id b);
     tx_category_id := default (tx_category_id old) (u_category_id b);
     tx_amount := default (tx_amount old) (u_amount b);
     tx_type := default (tx_type old) (u_type b);
     tx_description :=
       match u_description b with Some d => Some d | None => tx_description old end;
     tx_date := default (tx_date old) (u_tx_date b);
     tx_mode := match u_mode b with Some d => Some d | None => tx_mode old end;
     tx_reference :=
       match u_reference b with Some d => Some d | None => tx_reference old end;
     tx_notes := match u_notes b with Some d => Some d | None => tx_notes old end |}.

(** Step 1 of the update unit, and the first step of delete: revert the
    old balance change,
    [type === 'income' ? -Number(amount) : Number(amount)]. *)
Definition revert_old (st : Store) (existing : transaction) : option Store :=
  match JS.if_truthy (tx_account_id existing) with
  | Some account_id =>
      increment_balance st account_id
        (if String.eqb (tx_type existing) "income"
         then (- tx_amount existing)%Qc else tx_amount existing)
  | None => Some st
  end.

(** Step 2: write the row.  The foreign key is checked on a reference the
    request writes. *)
Definition persist_update (st : Store) (id : string) (existing : transaction)
    (b : update_body) : option Store :=
  if fk_ok st (default None (u_account_id b))
  then Some (set_transactions st
               (<[id := apply_update existing b]> (transactions st)))
  else None.

(** Step 3: apply the new balance change, computed from the request body.
    [Number(undefined)] is [NaN]; an increment by [NaN] is taken to be
    rejected by the store. *)
Definition apply_new (st : Store) (b : update_body) : option Store :=
  match JS.if_truthy (default None (u_account_id b)) with
  | Some account_id =>
      match u_amount b with
      | Some amount =>
          increment_balance st account_id
            (if bool_decide (u_type b = Some "income")
             then amount else (- amount)%Qc)
      | None => None
      end
  | None => Some st
  end.

Definition updateTransaction (st : Store) (userId : string) (id : string)
    (b : update_body) : response * Store :=
  match transactions st !! id with
  | Some existing =>
      if String.eqb (tx_user_id existing) userId then
        match st1 ← revert_old st existing;
              st2 ← persist_update st1 id existing b;
              apply_new st2 b with
        | Some st' => (Success 200 (Some id), st')
        | None => (Error 500 "Failed to update transaction", st)
        end
      else (Error 404 "Transaction not found", st)
  | None => (Error 404 "Transaction not found", st)
  end.

Definition deleteTransaction (st : Store) (userId : string) (id : string)
    : response * Store :=
  match transactions st !! id with
  | Some transaction =>
      if String.eqb (tx_user_id transaction) userId then
        match revert_old st transaction with
        | Some st1 =>
            (Success 200 None,
             set_transactions st1 (delete id (transactions st1)))
        | None => (Error 500 "Failed to delete transaction", st)
        end
      else (Error 404 "Transaction not found", st)
  | None => (Error 404 "Transaction not found", st)
  end.

(** ** Import controller *)

(** [generateIdempotencyKey(row, mapping)]. *)
Definition keyFields (row : gmap string string) (mapping : ColumnMapping)
    : list (option string) :=
  [ row !! m_date mapping;
    row !! m_amount mapping;
    row !! m_description mapping;
    Some (JS.or_else (row !! JS.prop_name (m_reference mapping)) "") ].

Definition generateIdempotencyKey (row : gmap string string)
    (mapping : ColumnMapping) : string :=
  MD5.hexdigest (JS.join "|" (keyFields row mapping)).

(** [parseFloat(row[mapping.amount]?.replace(/[^\d.-]/g, '') || '0')]. *)
Definition parse_amount (row : gmap string string) (mapping : ColumnMapping)
    : option Qc :=
  JS.parseFloat (JS.or_else (JS.strip_amount <$> row !! m_amount mapping) "0").

(** [uploadCSV], after the CSV parser has produced [csvData]. *)
Definition uploadCSV (st : Store) (userId : string) (originalname : string)
    (csvData : list (gmap string string)) : response * Store :=
  match csvData with
  | [] => (Error 400 "CSV file is empty", st)
  | _ =>
      let id := new_job_id st in
      (Success 200 (Some id),
       set_import_jobs st
         (<[id := {| job_user_id := userId;
                     filename := originalname;
                     total_rows := length csvData;
                     status := JobStatus.pending;
                     preview_data := take 5 csvData;
                     mapping_data := None;
                     processed_rows := 0;
                     successful_rows := 0;
                     failed_rows := 0;
                     error_log := None;
                     completed_at := None |}]> (import_jobs st)))
  end.

(** [prisma.import_jobs.findFirst({ where: { id, user_id } })]. *)
Definition find_job (st : Store) (jobId userId : string) : option import_job :=
  match import_jobs st !! jobId with
  | Some job => if String.eqb (job_user_id job) userId then Some job else None
  | None => None
  end.

Definition with_mapping (job : import_job) (mapping : ColumnMapping) : import_job :=
  {| job_user_id := job_user_id job; filename := filename job;
     total_rows := total_rows job; status := JobStatus.configured;
     preview_data := preview_data job; mapping_data := Some mapping;
     processed_rows := processed_rows job;
     successful_rows := successful_rows job; failed_rows := failed_rows job;
     error_log := error_log job; completed_at := completed_at job |}.

Definition with_status (job : import_job) (s : JobStatus.t) : import_job :=
  {| job_user_id := job_user_id job; filename := filename job;
     total_rows := total_rows job; status := s;
     preview_data := preview_data job; mapping_data := mapping_data job;
     processed_rows := processed_rows job;
     successful_rows := successful_rows job; failed_rows := failed_rows job;
     error_log := error_log job; completed_at := completed_at job |}.

(** [configureMapping], after [columnMappingSchema.parse] has accepted the
    body. *)
Definition configureMapping (st : Store) (userId jobId : string)
    (mapping : ColumnMapping) : response * Store :=
  match find_job st jobId userId with
  | None => (Error 404 "Import job not found", st)
  | Some importJob =>
      (Success 200 None,
       set_import_jobs st
         (<[jobId := with_mapping importJob mapping]> (import_jobs st)))
  end.

(** The foreground part of [processImport]: everything before the
    background task is started. *)
Definition processImport_start (st : Store) (userId jobId : string)
    : response * Store :=
  match find_job st jobId userId with
  | None => (Error 404 "Import job or mapping not found", st)
  | Some importJob =>
      match mapping_data importJob with
      | None => (Error 404 "Import job or mapping not found", st)
      | Some _ =>
          (Success 200 (Some jobId),
           set_import_jobs st
             (<[jobId := with_status importJob JobStatus.processing]>
                (import_jobs st)))
      end
  end.

(** What JavaScript throws here: the class of the error and its
    [message]. *)
Inductive thrown :=
| ReferenceError (message : string)
| TypeError (message : string).

(** [error instanceof Error ? error.message : 'Unknown error']. *)
Definition message_of (e : thrown) : string :=
  match e with
  | ReferenceError m => m
  | TypeError m => m
  end.

(** Reading the variable [name], where [scope] lists the bindings in
    scope: a name that is not bound throws. *)
Definition read_variable (scope : list (string * string)) (name : string)
    : thrown + string :=
  match List.find (fun b => String.eqb (fst b) name) scope with
  | Some b => inr (snd b)
  | None => inl (ReferenceError (name +:+ " is not defined"))
  end.

Section Processor.

(** [new Date(s).getTime()] for a string [s]: the epoch milliseconds, or
    [None] for an Invalid Date.  Which strings an engine accepts beyond
    the ISO format is implementation-defined, so the parser is a
    parameter. *)
Variable Date_parse : string -> option Z.

(** The clock read by [new Date()]. *)
Variable now : Z.

(** The string-valued bindings the body of the loop of [processImportJob]
    can read: the parameter [jobId] and the local [idempotencyKey].
    Nothing in the function, the module or the global scope is called
    [idempotency_key]. *)
Definition loop_scope (jobId idempotencyKey : string)
    : list (string * string) :=
  [("idempotencyKey", idempotencyKey); ("jobId", jobId)].

(** The [data] literal of the [prisma.import_rows.create] calls of the
    loop.  Each of them writes the property [idempotency_key] in
    shorthand, which reads the variable of that name. *)
Definition outcome (jobId : string) (i : nat) (idempotencyKey : string)
    (row : gmap string string) (mapped : option (Qc * string * Z))
    (tx : option string) (s : RowStatus.t) (msg : option string)
    : thrown + import_row :=
  match read_variable (loop_scope jobId idempotencyKey) "idempotency_key" with
  | inl e => inl e
  | inr key =>
      inr {| import_job_id := jobId; row_number := i + 1;
             idempotency_key := key; raw_data := row; mapped_data := mapped;
             transaction_id := tx; row_status := s; error_message := msg |}
  end.

(** [prisma.import_rows.create({ data })]: the argument is evaluated
    before the call. *)
Definition import_rows_create (st : Store) (data : thrown + import_row)
    : thrown + Store :=
  match data with
  | inl e => inl e
  | inr r => inr (add_import_row st r)
  end.

(** [prisma.import_rows.findFirst({ where: { idempotency_key } })]. *)
Definition existingRow (st : Store) (key : string) : option import_row :=
  List.find (fun r => String.eqb (idempotency_key r) key) (import_rows st).

(** The [data] literal of the [prisma.transactions.create] of the loop. *)
Definition transaction_data (importJob : import_job) (mapping : ColumnMapping)
    (row : gmap string string) (amount : Qc) (description : string)
    (txDate : Z) : transaction :=
  {| tx_user_id := job_user_id importJob;
     tx_account_id := None;
     tx_category_id := None;
     tx_amount := amount;
     tx_type := JS.or_else (row !! JS.prop_name (m_type mapping)) "expense";
     tx_description := Some description;
     tx_date := txDate;
     tx_mode := None;
     tx_reference := JS.or_null (row !! JS.prop_name (m_reference mapping));
     tx_notes := Some ("Imported from " +:+ filename importJob) |}.

(** The [try] block of one iteration, for the row at index [i]: the store
    it reaches, and either what it threw or the status it recorded.  The
    loop runs in no database transaction, so what was written before a
    throw stays. *)
Definition try_row (importJob : import_job) (jobId : string)
    (mapping : ColumnMapping) (st : Store) (i : nat)
    (row : gmap string string) (idempotencyKey : string)
    : Store * (thrown + RowStatus.t) :=
  match existingRow st idempotencyKey with
  | Some _ =>
      match import_rows_create st
              (outcome jobId i idempotencyKey row None None
                 RowStatus.duplicate (Some "Duplicate transaction detected"))
      with
      | inl e => (st, inl e)
      | inr st' => (st', inr RowStatus.duplicate)
      end
  | None =>
      let amount := parse_amount row mapping in
      let txDate := row !! m_date mapping ≫= Date_parse in
      let description := JS.if_truthy (row !! m_description mapping) in
      match amount, description, txDate with
      | Some amount, Some description, Some txDate =>
          let id := new_transaction_id st in
          let st1 :=
            set_transactions st
              (<[id := transaction_data importJob mapping row amount
                         description txDate]> (transactions st)) in
          match import_rows_create st1
                  (outcome jobId i idempotencyKey row
                     (Some (amount, description, txDate)) (Some id)
                     RowStatus.processed None)
          with
          | inl e => (st1, inl e)
          | inr st' => (st', inr RowStatus.processed)
          end
      | _, _, _ =>
          match import_rows_create st
                  (outcome jobId i idempotencyKey row None None
                     RowStatus.failed (Some "Invalid data format"))
          with
          | inl e => (st, inl e)
          | inr st' => (st', inr RowStatus.failed)
          end
      end
  end.

(** One iteration of the loop of [processImportJob]: the [try] block
    and, when it throws, the [catch] block, which records the row as
    [failed]; what the [catch] block throws leaves the loop. *)
Definition process_row (importJob : import_job) (jobId : string)
    (mapping : ColumnMapping) (st : Store) (i : nat)
    (row : gmap string string) : Store * (thrown + RowStatus.t) :=
  let idempotencyKey := generateIdempotencyKey row mapping in
  match try_row importJob jobId mapping st i row idempotencyKey with
  | (st1, inl error) =>
      match import_rows_create st1
              (outcome jobId i idempotencyKey row None None
                 RowStatus.failed (Some (message_of error)))
      with
      | inl e => (st1, inl e)
      | inr st' => (st', inr RowStatus.failed)
      end
  | (st1, inr s) => (st1, inr s)
  end.

(** The [for] loop from index [i] on, with the two counters: the store
    reached, and either what left the loop or the counters at its end. *)
Fixpoint process_rows (importJob : import_job) (jobId : string)
    (mapping : ColumnMapping) (i : nat) (csvData : list (gmap string string))
    (st : Store) (successCount failureCount : nat)
    : Store * (thrown + nat * nat) :=
  match csvData with
  | [] => (st, inr (successCount, failureCount))
  | row :: rest =>
      match process_row importJob jobId mapping st i row with
      | (st', inr RowStatus.processed) =>
          process_rows importJob jobId mapping (S i) rest st'
            (S successCount) failureCount
      | (st', inr _) =>
          process_rows importJob jobId mapping (S i) rest st'
            successCount (S failureCount)
      | (st', inl e) => (st', inl e)
      end
  end.

(** The update and the notification after the loop. *)
Definition complete_job (st : Store) (jobId : string) (importJob : import_job)
    (n successCount failureCount : nat) : Store :=
  let st1 :=
    set_import_jobs st
      (alter (fun job =>
                {| job_user_id := job_user_id job; filename := filename job;
                   total_rows := total_rows job;
                   status := JobStatus.completed;
                   preview_data := preview_data job;
                   mapping_data := mapping_data job;
                   processed_rows := n;
                   successful_rows := successCount;
                   failed_rows := failureCount;
                   error_log := error_log job;
                   completed_at := Some now |})
         jobId (import_jobs st)) in
  add_notification st1
    {| n_user_id := job_user_id importJob;
       n_type := "import_complete";
       n_title := "Import Completed";
       n_message :=
         "CSV import completed: " +:+ pretty successCount
           +:+ " successful, " +:+ pretty failureCount +:+ " failed";
       n_jobId := jobId;
       n_successCount := successCount;
       n_failureCount := failureCount |}.

(** The outer [catch]. *)
Definition fail_job (st : Store) (jobId : string) (msg : string) : Store :=
  set_import_jobs st
    (alter (fun job =>
              {| job_user_id := job_user_id job; filename := filename job;
                 total_rows := total_rows job;
                 status := JobStatus.failed;
                 preview_data := preview_data job;
                 mapping_data := mapping_data job;
                 processed_rows := processed_rows job;
                 successful_rows := successful_rows job;
                 failed_rows := failed_rows job;
                 error_log := Some msg;
                 completed_at := completed_at job |})
       jobId (import_jobs st)).

(** The background processor.  It reads the rows from [preview_data].
    With no mapping stored, [mapping.date] throws at the first row,
    before the per-row [try] is entered.  Whatever leaves the loop is
    caught by the outer [catch], which marks the job failed. *)
Definition processImportJob (st : Store) (jobId : string) : Store :=
  match import_jobs st !! jobId with
  | None => st
  | Some importJob =>
      let csvData := preview_data importJob in
      match mapping_data importJob, csvData with
      | None, _ :: _ =>
          fail_job st jobId
            (message_of
               (TypeError "Cannot read properties of null (reading 'date')"))
      | None, [] => complete_job st jobId importJob 0 0 0
      | Some mapping, _ =>
          match process_rows importJob jobId mapping 0 csvData st 0 0 with
          | (st', inr (successCount, failureCount)) =>
              complete_job st' jobId importJob (length csvData)
                successCount failureCount
          | (st', inl error) => fail_job st' jobId (message_of error)
          end
      end
  end.

(** [processImport]: the foreground part, then the background task run
    to its end. *)
Definition processImport (st : Store) (userId jobId : string)
    : response * Store :=
  match processImport_start st userId jobId with
  | (Success c id, st1) => (Success c id, processImportJob st1 jobId)
  | r => r
  end.

End Processor.

(** ** The ledger invariant *)

(** The signed amount of a stored transaction: [+amount] for income,
    [-amount] otherwise, the same reading of [type] the controller uses. *)
Definition signed_amount (t : transaction) : Qc :=
  balanceChange (tx_type t) (tx_amount t).

(** What transaction [t] contributes to account [a]. *)
Definition contribution (a : string) (t : transaction) : Qc :=
  if bool_decide (tx_account_id t = Some a) then signed_amount t else 0%Qc.

(** The sum of the signed amounts of the transactions referencing [a]. *)
Definition ledger_sum (a : string) (txs : gmap string transaction) : Qc :=
  map_fold (fun _ t s => (s + contribution a t)%Qc) 0%Qc txs.

Definition balance_of (st : Store) (a : string) : option Qc :=
  balance <$> accounts st !! a.

Definition balance_invariant (st : Store) : Prop :=
  forall a b, balance_of st a = Some b -> b = ledger_sum a (transactions st).

(** Account ids are generated, never the empty string. *)
Definition ids_nonempty (st : Store) : Prop := accounts st !! "" = None.

(** The mutations of the transaction controller, as requests. *)
Inductive mutation :=
| Create (userId : string) (now : Z) (b : create_body)
| Update (userId : string) (id : string) (b : update_body)
| Delete (userId : string) (id : string).

Definition apply_mutation (st : Store) (m : mutation) : Store :=
  match m with
  | Create userId now b => snd (createTransaction st userId now b)
  | Update userId id b => snd (updateTransaction st userId id b)
  | Delete userId id => snd (deleteTransaction st userId id)
  end.

(** An update request that states the account, the amount and the type. *)
Definition full_update (b : update_body) : Prop :=
  is_Some (u_account_id b) /\ is_Some (u_amount b) /\ is_Some (u_type b).

Definition restates_balance_fields (m : mutation) : Prop :=
  match m with
  | Update _ _ b => full_update b
  | _ => True
  end.

(** ** Worked inputs *)

(** A date parser for the worked examples: the date-only form
    [YYYY-MM-DD] of the ECMAScript date-time string format, read as UTC
    midnight; any other string is an Invalid Date.  Engines accept more
    formats; only the examples use this parser, the general theorems hold
    for every parser. *)
Module IsoDate.

Definition days_from_civil (y m d : Z) : Z :=
  let y' := if m <=? 2 then y - 1 else y in
  let era := y' / 400 in
  let yoe := y' - era * 400 in
  let mp := (m + 9) mod 12 in
  let doy := (153 * mp + 2) / 5 + d - 1 in
  let doe := yoe * 365 + yoe / 4 - yoe / 100 + doy in
  era * 146097 + doe - 719468.

Definition leap (y : Z) : bool :=
  ((y mod 4 =? 0) && negb (y mod 100 =? 0)) || (y mod 400 =? 0).

Definition days_in_month (y m : Z) : Z :=
  if m =? 2 then (if leap y then 29 else 28)
  else if (m =? 4) || (m =? 6) || (m =? 9) || (m =? 11) then 30 else 31.

Definition parse (s : string) : option Z :=
  match list_ascii_of_string s with
  | [y1; y2; y3; y4; "-"%char; m1; m2; "-"%char; d1; d2] =>
      if forallb JS.is_digit [y1; y2; y3; y4; m1; m2; d1; d2] then
        let y := JS.digits_value [y1; y2; y3; y4] in
        let m := JS.digits_value [m1; m2] in
        let d := JS.digits_value [d1; d2] in
        if (1 <=? m) && (m <=? 12) && (1 <=? d) && (d <=? days_in_month y m)
        then Some (days_from_civil y m d * 86400000)
        else None
      else None
  | _ => None
  end.

End IsoDate.

Module Scenario.

Definition empty_store (fk : bool) : Store :=
  {| account_fk := fk; accounts := ∅; transactions := ∅;
     import_jobs := ∅; import_rows := []; notifications := [] |}.

Definition with_account (st : Store) (id owner : string) (bal : Qc) : Store :=
  set_accounts st
    (<[id := {| acc_user_id := owner; balance := bal |}]> (accounts st)).

(** Alice owns accounts [A] and [B], both empty; no transactions. *)
Definition ledger0 : Store :=
  with_account (with_account (empty_store true) "B" "alice" 0%Qc)
    "A" "alice" 0%Qc.

(** [POST /transactions {account_id: A, amount: 100, type: income}]. *)
Definition income_100_on_A : create_body :=
  {| c_account_id := Some "A"; c_category_id := None;
     c_amount := Q2Qc 100; c_type := "income"; c_description := None;
     c_tx_date := None; c_mode := None; c_reference := None;
     c_notes := None |}.

Definition ledger1 : Store :=
  snd (createTransaction ledger0 "alice" 0 income_100_on_A).

(** [PUT /transactions/0 {description: "salary"}]. *)
Definition description_only : update_body :=
  {| u_account_id := None; u_category_id := None; u_amount := None;
     u_type := None; u_description := Some "salary"; u_tx_date := None;
     u_mode := None; u_reference := None; u_notes := None |}.

(** [PUT /transactions/0 {account_id: B, amount: 100}]. *)
Definition move_to_B : update_body :=
  {| u_account_id := Some (Some "B"); u_category_id := None;
     u_amount := Some (Q2Qc 100); u_type := None; u_description := None;
     u_tx_date := None; u_mode := None; u_reference := None;
     u_notes := None |}.

(** [PUT /transactions/0 {account_id: B, amount: 100, type: income}]. *)
Definition move_to_B_full : update_body :=
  {| u_account_id := Some (Some "B"); u_category_id := None;
     u_amount := Some (Q2Qc 100); u_type := Some "income";
     u_description := None; u_tx_date := None; u_mode := None;
     u_reference := None; u_notes := None |}.

(** Bob owns account [B]; Alice owns none. *)
Definition bobs_store (fk : bool) : Store :=
  with_account (empty_store fk) "B" "bob" 0%Qc.

(** [POST /transactions {account_id: a, amount: 30, type: expense}]. *)
Definition expense_30_on (a : string) : create_body :=
  {| c_account_id := Some a; c_category_id := None;
     c_amount := Q2Qc 30; c_type := "expense"; c_description := None;
     c_tx_date := None; c_mode := None; c_reference := None;
     c_notes := None |}.

End Scenario.

(** ** Decidable statuses, raw key fields *)

#[global] Instance row_status_eq_dec : EqDecision RowStatus.t.
Proof. solve_decision. Defined.

#[global] Instance job_status_eq_dec : EqDecision JobStatus.t.
Proof. solve_decision. Defined.

(** The four raw fields the idempotency key is computed from, with an
    absent field read as the empty string. *)
Definition raw_fields (row : gmap string string) (mapping : ColumnMapping)
    : list string :=
  [ default "" (row !! m_date mapping);
    default "" (row !! m_amount mapping);
    default "" (row !! m_description mapping);
    JS.or_else (row !! JS.prop_name (m_reference mapping)) "" ].

Module ImportScenario.

Definition csv_mapping : ColumnMapping :=
  {| m_date := "Date"; m_amount := "Amount"; m_description := "Description";
     m_type := Some "Type"; m_category := None; m_account := None;
     m_reference := Some "Ref" |}.

Definition csv_row (date amount description type ref : string)
    : gmap string string :=
  {[ "Date" := date; "Amount" := amount; "Description" := description;
     "Type" := type; "Ref" := ref ]}.

Definition groceries : gmap string string :=
  csv_row "2024-01-15" "12.50" "Groceries" "expense" "".

(** A whole import by one user: upload, mapping, processing, and the
    background task run to its end. *)
Definition import (st : Store) (userId name : string)
    (csvData : list (gmap string string)) : Store :=
  match uploadCSV st userId name csvData with
  | (Success _ (Some jobId), st1) =>
      let st2 := snd (configureMapping st1 userId jobId csv_mapping) in
      snd (processImport IsoDate.parse 0 st2 userId jobId)
  | (_, st1) => st1
  end.

(** Bob imports one row (job ["0"]); then he imports the same file once
    more (job ["1"]). *)
Definition after_bob : Store :=
  import (Scenario.empty_store true) "bob" "bob.csv" [groceries].

Definition after_bob_again : Store :=
  import after_bob "bob" "bob.csv" [groceries].

(** Two rows that differ in description and reference and agree once
    joined with ['|']. *)
Definition pipe_in_description : gmap string string :=
  csv_row "2024-01-15" "4.20" "Coffee|X1" "expense" "".

Definition pipe_in_reference : gmap string string :=
  csv_row "2024-01-15" "4.20" "Coffee" "expense" "X1|".

(** The same fields under other column names. *)
Definition other_mapping : ColumnMapping :=
  {| m_date := "When"; m_amount := "Sum"; m_description := "Memo";
     m_type := None; m_category := None; m_account := None;
     m_reference := None |}.

Definition groceries_renamed : gmap string string :=
  {[ "When" := "2024-01-15"; "Sum" := "12.50"; "Memo" := "Groceries" ]}.

Definition no_digits : gmap string string :=
  csv_row "2024-01-15" "abc" "Mystery" "expense" "".

Definition lone_minus : gmap string string :=
  csv_row "2024-01-15" "USD -" "Broken" "expense" "".

Definition refund : gmap string string :=
  csv_row "2024-01-15" "-5" "Refund" "debit" "".

Definition numbered (n : string) : gmap string string :=
  csv_row "2024-01-15" "1" n "expense" "".

Definition six_rows : list (gmap string string) :=
  numbered <$> ["R1"; "R2"; "R3"; "R4"; "R5"; "R6"].

(** Alice's file [bank.csv] of three rows, uploaded into the empty store
    (job ["0"]) and configured. *)
Definition bank_rows : list (gmap string string) :=
  [groceries; lone_minus; groceries].

Definition bank_configured : Store :=
  snd (configureMapping
         (snd (uploadCSV (Scenario.empty_store true) "alice" "bank.csv"
                 bank_rows))
         "alice" "0" csv_mapping).

(** The store once the request to process job ["0"] has been accepted,
    and the record of the job in it. *)
Definition bank_processing : Store :=
  snd (processImport_start bank_configured "alice" "0").

Definition bank_job : import_job :=
  {| job_user_id := "alice"; filename := "bank.csv"; total_rows := 3;
     status := JobStatus.processing; preview_data := bank_rows;
     mapping_data := Some csv_mapping;
     processed_rows := 0; successful_rows := 0; failed_rows := 0;
     error_log := None; completed_at := None |}.

(** The same, with the first row unparseable. *)
Definition broken_configured : Store :=
  snd (configureMapping
         (snd (uploadCSV (Scenario.empty_store true) "alice" "broken.csv"
                 [lone_minus; groceries]))
         "alice" "0" csv_mapping).

Definition broken_processing : Store :=
  snd (processImport_start broken_configured "alice" "0").

Definition broken_job : import_job :=
  {| job_user_id := "alice"; filename := "broken.csv"; total_rows := 2;
     status := JobStatus.processing;
     preview_data := [lone_minus; groceries];
     mapping_data := Some csv_mapping;
     processed_rows := 0; successful_rows := 0; failed_rows := 0;
     error_log := None; completed_at := None |}.

End ImportScenario.



(** ** Read-side handlers *)

(** [getTransaction]: the caller's transaction with that id, or 404. *)
Definition getTransaction (st : Store) (userId id : string)
    : response * option transaction :=
  match transactions st !! id with
  | Some transaction =>
      if String.eqb (tx_user_id transaction) userId
      then (Success 200 (Some id), Some transaction)
      else (Error 404 "Transaction not found", None)
  | None => (Error 404 "Transaction not found", None)
  end.

(** One entry of the preview returned by [previewMapping]. *)
Record preview_row := {
  p_row_number : nat;
  p_date : option string;
  p_amount : option Qc;
  p_description : option string;
  p_type : string;
  p_category : option string;
  p_account : option string;
  p_reference : option string;
  p_idempotency_key : string;
  p_valid : bool
}.

(** The body of the [map] callback of [previewMapping]; [p_valid] is the
    truthiness of
    [!isNaN(mappedRow.amount) && mappedRow.date && mappedRow.description]. *)
Definition mappedRow (mapping : ColumnMapping) (index : nat)
    (row : gmap string string) : preview_row :=
  let amount := parse_amount row mapping in
  {| p_row_number := index + 1;
     p_date := row !! m_date mapping;
     p_amount := amount;
     p_description := row !! m_description mapping;
     p_type := JS.or_else (row !! JS.prop_name (m_type mapping)) "expense";
     p_category := JS.or_null (row !! JS.prop_name (m_category mapping));
     p_account := JS.or_null (row !! JS.prop_name (m_account mapping));
     p_reference := JS.or_null (row !! JS.prop_name (m_reference mapping));
     p_idempotency_key := generateIdempotencyKey row mapping;
     p_valid := bool_decide (is_Some amount)
                && JS.truthy (row !! m_date mapping)
                && JS.truthy (row !! m_description mapping) |}.

Record preview_summary := {
  sum_total : nat;
  sum_valid : nat;
  sum_invalid : nat
}.

(** [previewMapping]: the mapped preview rows and the summary, or 404 when
    the job is missing, not the caller's, or has no mapping. *)
Definition previewMapping (st : Store) (userId jobId : string)
    : response * option (list preview_row * preview_summary) :=
  match find_job st jobId userId with
  | None => (Error 404 "Import job or mapping not found", None)
  | Some importJob =>
      match mapping_data importJob with
      | None => (Error 404 "Import job or mapping not found", None)
      | Some mapping =>
          let mappedPreview := imap (mappedRow mapping) (preview_data importJob) in
          (Success 200 (Some jobId),
           Some (mappedPreview,
                 {| sum_total := length mappedPreview;
                    sum_valid :=
                      length (filter (fun r => p_valid r = true) mappedPreview);
                    sum_invalid :=
                      length (filter (fun r => p_valid r <> true) mappedPreview)
                 |}))
      end
  end.

(** The body of the answer of [getImportStatus]. *)
Record import_status := {
  s_status : JobStatus.t;
  s_filename : string;
  s_totalRows : nat;
  s_processedRows : nat;
  s_successfulRows : nat;
  s_failedRows : nat;
  s_completedAt : option Z;
  s_errors : list (nat * option string)
}.

(** [getImportStatus]: the job with its rows included, of which the
    [failed] ones are listed as errors.  The included rows are taken in
    insertion order here; the query itself asks for no order, and nothing
    proved below depends on one. *)
Definition getImportStatus (st : Store) (userId jobId : string)
    : response * option import_status :=
  match find_job st jobId userId with
  | None => (Error 404 "Import job not found", None)
  | Some importJob =>
      let rows := filter (fun r => import_job_id r = jobId) (import_rows st) in
      (Success 200 (Some jobId),
       Some {| s_status := status importJob;
               s_filename := filename importJob;
               s_totalRows := total_rows importJob;
               s_processedRows := processed_rows importJob;
               s_successfulRows := successful_rows importJob;
               s_failedRows := failed_rows importJob;
               s_completedAt := completed_at importJob;
               s_errors :=
                 (fun row => (row_number row, error_message row))
                   <$> filter (fun row => row_status row = RowStatus.failed) rows
            |})
  end.

(** The transaction id a mutation writes: the new id for a create, the
    addressed id otherwise. *)
Definition touched_id (st : Store) (m : mutation) : string :=
  match m with
  | Create _ _ _ => new_transaction_id st
  | Update _ id _ => id
  | Delete _ id => id
  end.



(** ** Requests to the two controllers *)

Inductive request :=
| Mutation (m : mutation)
| Upload (userId originalname : string) (csvData : list (gmap string string))
| Configure (userId jobId : string) (mapping : ColumnMapping)
| Process (userId jobId : string).

Section Requests.

Variable Date_parse : string -> option Z.
Variable now : Z.

(** The store after a request has been served. *)
Definition handle (st : Store) (r : request) : Store :=
  match r with
  | Mutation m => apply_mutation st m
  | Upload userId originalname csvData =>
      snd (uploadCSV st userId originalname csvData)
  | Configure userId jobId mapping =>
      snd (configureMapping st userId jobId mapping)
  | Process userId jobId => snd (processImport Date_parse now st userId jobId)
  end.

Definition handle_all (st : Store) (rs : list request) : Store :=
  foldl handle st rs.

End Requests.





(** A job no run has got through: some row is stored, the counters and
    the completion time are as at upload, and the status is not
    [completed]. *)
Definition never_completed (job : import_job) : Prop :=
  status job <> JobStatus.completed
  /\ preview_data job <> []
  /\ processed_rows job = 0%nat
  /\ successful_rows job = 0%nat
  /\ failed_rows job = 0%nat
  /\ completed_at job = None.

(** * Properties *)

Section LedgerSum.

Implicit Types (txs : gmap string transaction) (t : transaction).

Lemma ledger_sum_insert_fresh a k t txs :
  txs !! k = None ->
  ledger_sum a (<[k := t]> txs) = (ledger_sum a txs + contribution a t)%Qc.
Proof.
  intros Hk. unfold ledger_sum.
  rewrite map_fold_insert_L; [reflexivity | | exact Hk].
  intros; ring.
Qed.

Lemma ledger_sum_delete a k t txs :
  txs !! k = Some t ->
  ledger_sum a txs = (ledger_sum a (delete k txs) + contribution a t)%Qc.
Proof.
  intros Hk. unfold ledger_sum.
  rewrite (map_fold_delete_L _ _ k t txs); [reflexivity | | exact Hk].
  intros; ring.
Qed.

Lemma ledger_sum_replace a k t t' txs :
  txs !! k = Some t ->
  ledger_sum a (<[k := t']> txs)
  = (ledger_sum a txs - contribution a t + contribution a t')%Qc.
Proof.
  intros Hk.
  rewrite <- (insert_delete_eq txs k t').
  rewrite ledger_sum_insert_fresh by apply lookup_delete_eq.
  rewrite (ledger_sum_delete a k t txs Hk). ring.
Qed.

Lemma ledger_sum_remove a k t txs :
  txs !! k = Some t ->
  ledger_sum a (delete k txs) = (ledger_sum a txs - contribution a t)%Qc.
Proof. intros Hk. rewrite (ledger_sum_delete a k t txs Hk). ring. Qed.

End LedgerSum.

Lemma new_transaction_id_fresh st :
  transactions st !! new_transaction_id st = None.
Proof.
  unfold new_transaction_id. apply (not_elem_of_dom (D := gset string)).
  apply is_fresh.
Qed.

Lemma if_truthy_Some o s : JS.if_truthy o = Some s -> o = Some s /\ s <> "".
Proof.
  unfold JS.if_truthy, JS.truthy. destruct o as [x|]; [|discriminate].
  destruct (String.eqb_spec x ""); simpl; [discriminate|].
  intros [= ->]. split; [reflexivity | assumption].
Qed.

Lemma if_truthy_None o : JS.if_truthy o = None -> o = None \/ o = Some "".
Proof.
  unfold JS.if_truthy, JS.truthy. destruct o as [x|]; [|auto].
  destruct (String.eqb_spec x ""); simpl; [subst; auto | discriminate].
Qed.

(** What an increment does to every balance, and to nothing else. *)
Lemma increment_balance_spec st id d st' :
  increment_balance st id d = Some st' ->
  (forall a, balance_of st' a
             = (fun b => (b + (if decide (a = id) then d else 0))%Qc)
                 <$> balance_of st a)
  /\ transactions st' = transactions st
  /\ account_fk st' = account_fk st
  /\ (forall a, is_Some (accounts st' !! a) <-> is_Some (accounts st !! a))
  /\ (forall a, a <> id -> accounts st' !! a = accounts st !! a)
  /\ import_jobs st' = import_jobs st
  /\ import_rows st' = import_rows st.
Proof.
  unfold increment_balance. destruct (accounts st !! id) as [acc|] eqn:Hid;
    [|discriminate].
  intros [= <-]. simpl. repeat split.
  - intros a. unfold balance_of. simpl. destruct (decide (a = id)) as [->|Hne].
    + rewrite lookup_insert_eq, Hid. reflexivity.
    + rewrite lookup_insert_ne by congruence.
      destruct (accounts st !! a); simpl; [f_equal; ring | reflexivity].
  - destruct (decide (a = id)) as [->|Hne].
    + rewrite Hid; eauto.
    + rewrite lookup_insert_ne by congruence. auto.
  - destruct (decide (a = id)) as [->|Hne].
    + rewrite lookup_insert_eq; eauto.
    + rewrite lookup_insert_ne by congruence. auto.
  - intros a Hne. rewrite lookup_insert_ne by congruence. reflexivity.
Qed.

Lemma contribution_other a t :
  tx_account_id t <> Some a -> contribution a t = 0%Qc.
Proof. intros H. unfold contribution. rewrite bool_decide_eq_false_2; auto. Qed.

Lemma contribution_same a t :
  tx_account_id t = Some a -> contribution a t = signed_amount t.
Proof. intros H. unfold contribution. rewrite bool_decide_eq_true_2; auto. Qed.

(** A transaction whose reference fails [if (account_id)] contributes to no
    account of a store whose ids are non-empty. *)
Lemma contribution_falsy st a b t :
  ids_nonempty st -> balance_of st a = Some b ->
  JS.if_truthy (tx_account_id t) = None -> contribution a t = 0%Qc.
Proof.
  intros Hne Hab Hf. apply contribution_other.
  apply if_truthy_None in Hf as [-> | ->]; [discriminate|].
  intros [= <-]. unfold balance_of in Hab. rewrite Hne in Hab. discriminate.
Qed.

Definition same_account_ids (st st' : Store) : Prop :=
  forall a, is_Some (accounts st' !! a) <-> is_Some (accounts st !! a).

Lemma same_account_ids_nonempty st st' :
  same_account_ids st st' -> ids_nonempty st -> ids_nonempty st'.
Proof.
  unfold ids_nonempty. intros H Hne.
  destruct (accounts st' !! "") eqn:E; [|reflexivity].
  destruct (proj1 (H "")) as [x Hx]; [eauto | congruence].
Qed.

Lemma revert_old_spec st old st1 :
  ids_nonempty st -> revert_old st old = Some st1 ->
  (forall a b, balance_of st a = Some b ->
               balance_of st1 a = Some (b - contribution a old)%Qc)
  /\ transactions st1 = transactions st
  /\ account_fk st1 = account_fk st
  /\ same_account_ids st st1.
Proof.
  intros Hne. unfold revert_old.
  destruct (JS.if_truthy (tx_account_id old)) as [oa|] eqn:E.
  - apply if_truthy_Some in E as [E1 E2]. intros H.
    apply increment_balance_spec in H as (Hb & Ht & Hfk & Hdom & _).
    split; [|auto]. intros a b Hab. rewrite Hb, Hab. simpl. f_equal.
    destruct (decide (a = oa)) as [->|Hna].
    + rewrite contribution_same by assumption.
      unfold signed_amount, balanceChange.
      destruct (String.eqb (tx_type old) "income"); ring.
    + rewrite contribution_other by congruence. ring.
  - intros [= <-]. split; [|unfold same_account_ids; tauto].
    intros a b Hab. rewrite (contribution_falsy st a b old) by assumption.
    rewrite Hab. f_equal. ring.
Qed.

Lemma apply_new_spec st b old x m t st3 :
  u_account_id b = Some x -> u_amount b = Some m -> u_type b = Some t ->
  ids_nonempty st -> apply_new st b = Some st3 ->
  (forall a b0, balance_of st a = Some b0 ->
     balance_of st3 a = Some (b0 + contribution a (apply_update old b))%Qc)
  /\ transactions st3 = transactions st
  /\ account_fk st3 = account_fk st
  /\ same_account_ids st st3.
Proof.
  intros Hx Hm Ht Hne. unfold apply_new. rewrite Hx, Hm, Ht. simpl.
  assert (Hacc : tx_account_id (apply_update old b) = x)
    by (unfold apply_update; simpl; rewrite Hx; reflexivity).
  assert (Hsig : signed_amount (apply_update old b)
                 = if bool_decide (Some t = Some "income") then m else (- m)%Qc).
  { unfold signed_amount, balanceChange, apply_update. simpl.
    rewrite Hm, Ht. simpl.
    destruct (String.eqb_spec t "income") as [->|Hn].
    - rewrite bool_decide_eq_true_2; reflexivity.
    - rewrite bool_decide_eq_false_2; [reflexivity | congruence]. }
  destruct (JS.if_truthy x) as [na|] eqn:E.
  - apply if_truthy_Some in E as [E1 E2]. intros H.
    apply increment_balance_spec in H as (Hb & Htx & Hfk & Hdom & _).
    split; [|auto]. intros a b0 Hab. rewrite Hb, Hab. simpl. f_equal.
    destruct (decide (a = na)) as [->|Hna].
    + rewrite contribution_same by congruence. rewrite Hsig. reflexivity.
    + rewrite contribution_other by congruence. ring.
  - intros [= <-]. split; [|unfold same_account_ids; tauto].
    intros a b0 Hab.
    rewrite (contribution_falsy st a b0 (apply_update old b)); try assumption.
    + rewrite Hab. f_equal. ring.
    + rewrite Hacc. exact E.
Qed.

(** [createTransaction] keeps every balance equal to its ledger sum. *)
Lemma create_preserves st userId now b :
  ids_nonempty st -> balance_invariant st ->
  let st' := snd (createTransaction st userId now b) in
  ids_nonempty st' /\ balance_invariant st'.
Proof.
  intros Hne Hinv. unfold createTransaction.
  destruct (fk_ok st (c_account_id b)); [|simpl; auto].
  set (id := new_transaction_id st).
  set (row := Build_transaction _ _ _ _ _ _ _ _ _ _).
  set (st1 := set_transactions st _).
  assert (Hfresh : transactions st !! id = None)
    by apply new_transaction_id_fresh.
  assert (Htx1 : transactions st1 = <[id := row]> (transactions st))
    by reflexivity.
  assert (Hbal1 : forall a, balance_of st1 a = balance_of st a)
    by reflexivity.
  destruct (JS.if_truthy (c_account_id b)) as [aid|] eqn:E.
  - apply if_truthy_Some in E as [E1 E2].
    destruct (accounts st1 !! aid) as [acc|] eqn:Hacc.
    + destruct (increment_balance st1 aid
                  (balanceChange (c_type b) (c_amount b))) as [st2|] eqn:Hinc.
      2:{ unfold increment_balance in Hinc. rewrite Hacc in Hinc.
          discriminate. }
      apply increment_balance_spec in Hinc as (Hb & Htx & _ & Hdom & _).
      simpl. split.
      * apply (same_account_ids_nonempty st1); assumption.
      * intros a bal. rewrite Hb, Hbal1.
        destruct (balance_of st a) as [b0|] eqn:Ha; [|discriminate].
        simpl. intros [= <-]. rewrite Htx, Htx1.
        rewrite ledger_sum_insert_fresh by assumption.
        rewrite <- (Hinv a b0 Ha).
        f_equal. destruct (decide (a = aid)) as [->|Hna].
        -- rewrite contribution_same by exact E1. reflexivity.
        -- rewrite contribution_other; [reflexivity|].
           simpl. rewrite E1. congruence.
    + simpl. split; [assumption|]. intros a bal Hab.
      rewrite Hbal1 in Hab. rewrite Htx1.
      rewrite ledger_sum_insert_fresh by assumption.
      rewrite contribution_other.
      * rewrite <- (Hinv a bal Hab). ring.
      * simpl. rewrite E1. intros [= <-]. unfold balance_of in Hab.
        change (accounts st1) with (accounts st) in Hacc.
        rewrite Hacc in Hab. discriminate.
  - simpl. split; [assumption|]. intros a bal Hab.
    rewrite Hbal1 in Hab. rewrite Htx1.
    rewrite ledger_sum_insert_fresh by assumption.
    rewrite (contribution_falsy st a bal row Hne Hab E).
    rewrite <- (Hinv a bal Hab). ring.
Qed.

(** [deleteTransaction] keeps every balance equal to its ledger sum. *)
Lemma delete_preserves st userId id :
  ids_nonempty st -> balance_invariant st ->
  let st' := snd (deleteTransaction st userId id) in
  ids_nonempty st' /\ balance_invariant st'.
Proof.
  intros Hne Hinv. unfold deleteTransaction.
  destruct (transactions st !! id) as [old|] eqn:Hold; [|simpl; auto].
  destruct (String.eqb (tx_user_id old) userId); [|simpl; auto].
  destruct (revert_old st old) as [st1|] eqn:Hrev; [|simpl; auto].
  apply revert_old_spec in Hrev as (Hb & Htx & _ & Hdom); [|assumption].
  simpl. split.
  - apply (same_account_ids_nonempty st); assumption.
  - intros a bal Hab. unfold balance_of in Hab. simpl in Hab.
    fold (balance_of st1 a) in Hab.
    destruct (balance_of st a) as [b0|] eqn:Ha.
    + rewrite (Hb a b0 Ha) in Hab. injection Hab as <-.
      simpl. rewrite Htx. rewrite (ledger_sum_remove a id old) by assumption.
      rewrite <- (Hinv a b0 Ha). reflexivity.
    + exfalso. unfold balance_of in Ha, Hab.
      destruct (accounts st1 !! a) eqn:E1; [|discriminate].
      destruct (proj1 (Hdom a)) as [y Hy]; [eauto|].
      rewrite Hy in Ha. discriminate.
Qed.

(** [updateTransaction] keeps every balance equal to its ledger sum when
    the request states account, amount and type. *)
Lemma update_preserves st userId id b :
  full_update b ->
  ids_nonempty st -> balance_invariant st ->
  let st' := snd (updateTransaction st userId id b) in
  ids_nonempty st' /\ balance_invariant st'.
Proof.
  intros ([x Hx] & [m Hm] & [t Ht]) Hne Hinv. unfold updateTransaction.
  destruct (transactions st !! id) as [old|] eqn:Hold; [|simpl; auto].
  destruct (String.eqb (tx_user_id old) userId); [|simpl; auto].
  destruct (revert_old st old) as [st1|] eqn:Hrev; [|simpl; auto].
  apply revert_old_spec in Hrev as (Hb1 & Htx1 & _ & Hdom1); [|assumption].
  simpl. unfold persist_update.
  destruct (fk_ok st1 _); [|simpl; auto]. simpl.
  set (st2 := set_transactions st1 _).
  assert (Hne2 : ids_nonempty st2)
    by (apply (same_account_ids_nonempty st); assumption).
  destruct (apply_new st2 b) as [st3|] eqn:Hnew; [|simpl; auto].
  apply (apply_new_spec st2 b old x m t) in Hnew
    as (Hb3 & Htx3 & _ & Hdom3); try assumption.
  simpl. split.
  - apply (same_account_ids_nonempty st2); assumption.
  - intros a bal Hab.
    destruct (balance_of st a) as [b0|] eqn:Ha.
    + assert (H2 : balance_of st2 a = Some (b0 - contribution a old)%Qc)
        by (apply Hb1; assumption).
      rewrite (Hb3 a _ H2) in Hab. injection Hab as <-.
      rewrite Htx3. simpl. rewrite Htx1.
      rewrite (ledger_sum_replace a id old) by assumption.
      rewrite <- (Hinv a b0 Ha). reflexivity.
    + exfalso. unfold balance_of in Ha, Hab.
      destruct (accounts st3 !! a) eqn:E3; [|discriminate].
      destruct (proj1 (Hdom3 a)) as [y Hy]; [eauto|].
      destruct (proj1 (Hdom1 a)) as [z Hz]; [eauto|].
      rewrite Hz in Ha. discriminate.
Qed.

(** The ledger invariant over any sequence of mutations in which every
    update restates account, amount and type. *)
Theorem balance_invariant_full_requests (ms : list mutation) (st : Store) :
  Forall restates_balance_fields ms ->
  ids_nonempty st -> balance_invariant st ->
  balance_invariant (foldl apply_mutation st ms).
Proof.
  intros Hms. revert st.
  induction Hms as [|m ms Hm _ IH]; intros st Hne Hinv; [exact Hinv|].
  simpl. destruct m as [u now b | u id b | u id]; simpl in *.
  - destruct (create_preserves st u now b Hne Hinv). apply IH; assumption.
  - destruct (update_preserves st u id b Hm Hne Hinv). apply IH; assumption.
  - destruct (delete_preserves st u id Hne Hinv). apply IH; assumption.
Qed.

Lemma if_truthy_nonempty s : s <> "" -> JS.if_truthy (Some s) = Some s.
Proof.
  intros H. unfold JS.if_truthy, JS.truthy.
  destruct (String.eqb_spec s ""); [contradiction | reflexivity].
Qed.

(** An update that restates amount and type and names another account
    moves the delta: for an income of [m] moved from [A] to [B], the
    request succeeds, [A] loses [m], [B] gains [m], no other account
    changes, and the row holds the new values. *)
Lemma update_full_moves_delta st userId id old b A B m accA accB :
  transactions st !! id = Some old ->
  tx_user_id old = userId ->
  tx_account_id old = Some A -> tx_type old = "income" -> tx_amount old = m ->
  u_account_id b = Some (Some B) -> u_amount b = Some m ->
  u_type b = Some "income" ->
  A <> B -> A <> "" -> B <> "" ->
  accounts st !! A = Some accA -> accounts st !! B = Some accB ->
  exists st',
    updateTransaction st userId id b = (Success 200 (Some id), st')
    /\ balance_of st' A = Some (balance accA - m)%Qc
    /\ balance_of st' B = Some (balance accB + m)%Qc
    /\ (forall C, C <> A -> C <> B -> accounts st' !! C = accounts st !! C)
    /\ transactions st' = <[id := apply_update old b]> (transactions st).
Proof.
  intros Hold Hu HoA Hty Hm HbB Hbm Hbt HAB HA HB HaccA HaccB.
  unfold updateTransaction. rewrite Hold, Hu, String.eqb_refl.
  unfold revert_old. rewrite HoA, (if_truthy_nonempty A HA), Hty. simpl.
  unfold increment_balance at 1. rewrite HaccA. simpl.
  unfold persist_update, fk_ok. rewrite HbB. simpl.
  rewrite lookup_insert_ne, HaccB by exact HAB.
  rewrite bool_decide_eq_true_2 by eauto. rewrite orb_true_r. simpl.
  unfold apply_new. rewrite HbB, Hbm, Hbt. simpl.
  rewrite (if_truthy_nonempty B HB). unfold increment_balance. simpl.
  rewrite lookup_insert_ne, HaccB by exact HAB. simpl.
  eexists. split; [reflexivity|]. unfold balance_of. simpl. repeat split.
  - rewrite lookup_insert_ne, lookup_insert_eq by congruence. simpl.
    rewrite Hm. reflexivity.
  - rewrite lookup_insert_eq. reflexivity.
  - intros C HCA HCB. rewrite !lookup_insert_ne by congruence. reflexivity.
Qed.

(** ** Evaluating the handlers on concrete stores *)

(** Closes a goal that equates two concrete rationals, possibly under
    [Some], by comparing their reduced fractions. *)
Ltac qc_eval :=
  vm_compute;
  repeat match goal with |- Some _ = Some _ => f_equal end;
  first [ reflexivity | apply Qc_is_canon; vm_compute; reflexivity ].

Lemma ledger_sum_empty a : ledger_sum a ∅ = 0%Qc.
Proof. unfold ledger_sum. apply map_fold_empty. Qed.

Lemma ledger0_ok :
  ids_nonempty Scenario.ledger0 /\ balance_invariant Scenario.ledger0.
Proof.
  split; [reflexivity|]. intros a b H. simpl. rewrite ledger_sum_empty.
  unfold balance_of, Scenario.ledger0, Scenario.with_account in H.
  simpl in H.
  destruct (decide (a = "A")) as [->|HA].
  - rewrite lookup_insert_eq in H. injection H as <-. reflexivity.
  - rewrite lookup_insert_ne in H by congruence.
    destruct (decide (a = "B")) as [->|HB].
    + rewrite lookup_insert_eq in H. injection H as <-. reflexivity.
    + rewrite lookup_insert_ne, lookup_empty in H by congruence.
      discriminate.
Qed.

(** C1 (defect).  The balance invariant, balance = sum of the signed
    amounts of the transactions referencing the account, is broken by an
    update that leaves out the account: after creating an income of 100
    on account A (the invariant holds), the valid request
    [PUT {description}] reverts the 100 on A, keeps the row on A and
    applies nothing, so A's balance is 0 while its ledger sum is 100. *)
Theorem partial_update_breaks_balance_invariant :
  let r := updateTransaction Scenario.ledger1 "alice" "0"
             Scenario.description_only in
  createTransactionSchema Scenario.income_100_on_A = true
  /\ updateTransactionSchema Scenario.description_only = true
  /\ balance_invariant Scenario.ledger1
  /\ fst r = Success 200 (Some "0")
  /\ (tx_account_id <$> transactions (snd r) !! "0") = Some (Some "A")
  /\ balance_of (snd r) "A" = Some (Q2Qc 0)
  /\ ledger_sum "A" (transactions (snd r)) = Q2Qc 100
  /\ ~ balance_invariant (snd r).
Proof.
  intros r.
  assert (Hbal : balance_of (snd r) "A" = Some (Q2Qc 0)) by qc_eval.
  assert (Hsum : ledger_sum "A" (transactions (snd r)) = Q2Qc 100) by qc_eval.
  split; [vm_compute; reflexivity|].
  split; [vm_compute; reflexivity|].
  split.
  { destruct ledger0_ok as [Hne Hinv].
    exact (proj2 (create_preserves Scenario.ledger0 "alice" 0
                    Scenario.income_100_on_A Hne Hinv)). }
  split; [vm_compute; reflexivity|].
  split; [vm_compute; reflexivity|].
  split; [exact Hbal|]. split; [exact Hsum|].
  intros Hinv. specialize (Hinv "A" _ Hbal). rewrite Hsum in Hinv.
  apply (f_equal this) in Hinv. vm_compute in Hinv. discriminate Hinv.
Qed.

(** C2 (defect).  An update applies the new delta with the direction read
    from the request, not from the row it has just written: moving the
    income of 100 from A to B with [PUT {account_id: B, amount: 100}]
    keeps the row an income, takes 100 off A and takes 100 off B too. *)
Theorem update_without_type_debits_new_account :
  let r := updateTransaction Scenario.ledger1 "alice" "0" Scenario.move_to_B in
  updateTransactionSchema Scenario.move_to_B = true
  /\ balance_of Scenario.ledger1 "A" = Some (Q2Qc 100)
  /\ balance_of Scenario.ledger1 "B" = Some (Q2Qc 0)
  /\ fst r = Success 200 (Some "0")
  /\ ((fun t => (tx_account_id t, tx_type t)) <$> transactions (snd r) !! "0")
     = Some (Some "B", "income")
  /\ balance_of (snd r) "A" = Some (Q2Qc 0)
  /\ balance_of (snd r) "B" = Some (Q2Qc (-100)).
Proof.
  intros r. repeat split; first [vm_compute; reflexivity | qc_eval].
Qed.

(** With the type restated the same move is exact: A loses 100 and B
    gains 100. *)
Example update_with_type_moves_delta :
  let r := updateTransaction Scenario.ledger1 "alice" "0"
             Scenario.move_to_B_full in
  fst r = Success 200 (Some "0")
  /\ balance_of (snd r) "A" = Some (Q2Qc 0)
  /\ balance_of (snd r) "B" = Some (Q2Qc 100).
Proof.
  intros r. repeat split; first [vm_compute; reflexivity | qc_eval].
Qed.

(** C3 (counterexample).  Creating a transaction on an account that
    belongs to another owner does not fail: Alice's expense of 30 on Bob's
    account B is inserted and Bob's balance drops to -30.  And on a store
    without the foreign key, creating one on an account id that does not
    exist does not fail either: the row is inserted and the answer is
    201. *)
Lemma create_on_foreign_account_succeeds :
  let r := createTransaction (Scenario.bobs_store true) "alice" 0
             (Scenario.expense_30_on "B") in
  let r' := createTransaction (Scenario.bobs_store false) "alice" 0
              (Scenario.expense_30_on "nobody") in
  ((acc_user_id <$> accounts (Scenario.bobs_store true) !! "B") = Some "bob"
   /\ fst r = Success 201 (Some "0")
   /\ ((fun t => (tx_user_id t, tx_account_id t))
         <$> transactions (snd r) !! "0")
      = Some ("alice", Some "B")
   /\ balance_of (Scenario.bobs_store true) "B" = Some (Q2Qc 0)
   /\ balance_of (snd r) "B" = Some (Q2Qc (-30)))
  /\ (accounts (Scenario.bobs_store false) !! "nobody" = None
      /\ fst r' = Success 201 (Some "0")
      /\ (tx_account_id <$> transactions (snd r') !! "0")
         = Some (Some "nobody")).
Proof.
  intros r r'. repeat split; first [vm_compute; reflexivity | qc_eval].
Qed.

(** C3 (amended).  When the referenced account id does not exist, create
    changes no account: the handler looks the account up and skips the
    balance update.  The row is inserted and the request answers 201,
    unless the database's foreign key rejects the dangling reference; then
    the request answers 500 and the store is unchanged. *)
Theorem create_missing_account_changes_no_balance
    (st : Store) (userId : string) (now : Z) (b : create_body) (aid : string) :
  c_account_id b = Some aid ->
  accounts st !! aid = None ->
  let r := createTransaction st userId now b in
  accounts (snd r) = accounts st
  /\ (account_fk st = true ->
      r = (Error 500 "Failed to create transaction", st))
  /\ (account_fk st = false ->
      fst r = Success 201 (Some (new_transaction_id st))
      /\ (tx_account_id <$> transactions (snd r) !! new_transaction_id st)
         = Some (Some aid)).
Proof.
  intros Hb Hacc. unfold createTransaction, fk_ok. rewrite Hb, Hacc.
  rewrite bool_decide_eq_false_2 by (intros [? ?]; discriminate).
  destruct (account_fk st); simpl.
  - repeat split; intros; discriminate.
  - destruct (JS.if_truthy (Some aid)) as [a|] eqn:E.
    + apply if_truthy_Some in E as [[= <-] _]. rewrite Hacc. simpl.
      rewrite lookup_insert_eq. repeat split; intros; discriminate.
    + simpl. rewrite lookup_insert_eq. repeat split; intros; discriminate.
Qed.

Lemma create_missing_account_changes_no_balance_witness :
  let r := createTransaction (Scenario.bobs_store false) "alice" 0
             (Scenario.expense_30_on "nobody") in
  accounts (snd r) = accounts (Scenario.bobs_store false)
  /\ fst r = Success 201 (Some "0").
Proof.
  intros r.
  destruct (create_missing_account_changes_no_balance
              (Scenario.bobs_store false) "alice" 0
              (Scenario.expense_30_on "nobody") "nobody"
              eq_refl eq_refl) as (H1 & _ & H3).
  split; [exact H1 | exact (proj1 (H3 eq_refl))].
Defined.

(** ** The import loop *)

Lemma existingRow_Some st k :
  is_Some (existingRow st k)
  <-> exists r, r ∈ import_rows st /\ idempotency_key r = k.
Proof.
  unfold existingRow. split.
  - intros [r Hr]. apply find_some in Hr as [Hin Heq].
    exists r. split; [apply list_elem_of_In; exact Hin|].
    apply String.eqb_eq. exact Heq.
  - intros (r & Hin & Hk).
    destruct (find _ (import_rows st)) as [x|] eqn:E; [eauto|].
    apply list_elem_of_In in Hin.
    pose proof (find_none _ _ E r Hin) as Hf. simpl in Hf.
    apply String.eqb_neq in Hf. congruence.
Qed.

(** The error that ends every run over a stored row. *)
Local Abbreviation unbound_key :=
  (ReferenceError "idempotency_key is not defined").

(** No [data] literal of the loop can be built. *)
Lemma outcome_throws jobId i key row mapped tx s msg :
  outcome jobId i key row mapped tx s msg = inl unbound_key.
Proof. reflexivity. Qed.

Section ImportLoop.

Variable Date_parse : string -> option Z.
Variables (importJob : import_job) (jobId : string) (mapping : ColumnMapping).

Local Abbreviation step := (process_row Date_parse importJob jobId mapping).
Local Abbreviation loop := (process_rows Date_parse importJob jobId mapping).

(** One iteration, in closed form: it throws, having stored the row's
    transaction when the key is not recorded and the three fields are
    valid, and nothing otherwise. *)
Lemma process_row_eq st i row :
  step st i row
  = (match existingRow st (generateIdempotencyKey row mapping),
           parse_amount row mapping,
           JS.if_truthy (row !! m_description mapping),
           row !! m_date mapping ≫= Date_parse with
     | None, Some amount, Some description, Some txDate =>
         set_transactions st
           (<[new_transaction_id st :=
                transaction_data importJob mapping row amount description
                  txDate]> (transactions st))
     | _, _, _, _ => st
     end, inl unbound_key).
Proof.
  unfold process_row, try_row.
  destruct (existingRow st _); [reflexivity|].
  destruct (parse_amount row mapping); [|reflexivity].
  destruct (JS.if_truthy _); [|reflexivity].
  destruct (_ ≫= _); reflexivity.
Qed.

(** One iteration writes the transactions table only. *)
Lemma process_row_frame st i row :
  let st' := fst (step st i row) in
  account_fk st' = account_fk st
  /\ accounts st' = accounts st
  /\ import_jobs st' = import_jobs st
  /\ import_rows st' = import_rows st
  /\ notifications st' = notifications st.
Proof.
  rewrite process_row_eq. cbn [fst].
  destruct (existingRow st _); [auto 6|].
  destruct (parse_amount row mapping); [|auto 6].
  destruct (JS.if_truthy _); [|auto 6].
  destruct (_ ≫= _); auto 6.
Qed.

(** What one iteration does to the transactions table. *)
Lemma process_row_transactions st i row :
  let st' := fst (step st i row) in
  transactions st' = transactions st
  \/ exists t, transactions st' = <[new_transaction_id st := t]> (transactions st)
               /\ tx_user_id t = job_user_id importJob
               /\ tx_account_id t = None.
Proof.
  rewrite process_row_eq. cbn [fst].
  destruct (existingRow st _); [auto|].
  destruct (parse_amount row mapping); [|auto].
  destruct (JS.if_truthy _); [|auto].
  destruct (_ ≫= _); [|auto].
  right. eexists. split; [reflexivity|]. split; reflexivity.
Qed.

(** The loop does not get past its first iteration. *)
Lemma process_rows_cons i row rest st s f :
  loop i (row :: rest) st s f = (fst (step st i row), inl unbound_key).
Proof.
  cbn [process_rows]. rewrite process_row_eq. reflexivity.
Qed.

End ImportLoop.

Section ImportRun.

Variable Date_parse : string -> option Z.
Variable now : Z.

Local Abbreviation run := (processImportJob Date_parse now).

(** A run over a job with a mapping and a stored row ends in the outer
    [catch], after the first iteration. *)
Lemma processImportJob_rows st jobId importJob mapping row rest :
  import_jobs st !! jobId = Some importJob ->
  mapping_data importJob = Some mapping ->
  preview_data importJob = row :: rest ->
  run st jobId
  = fail_job (fst (process_row Date_parse importJob jobId mapping st 0 row))
      jobId "idempotency_key is not defined".
Proof.
  intros Hjob Hmap Hrows. unfold processImportJob.
  rewrite Hjob, Hmap, Hrows, process_rows_cons. reflexivity.
Qed.

(** A run over a job with no stored row completes it. *)
Lemma processImportJob_no_rows st jobId importJob :
  import_jobs st !! jobId = Some importJob ->
  preview_data importJob = [] ->
  run st jobId = complete_job now st jobId importJob 0 0 0.
Proof.
  intros Hjob Hrows. unfold processImportJob. rewrite Hjob, Hrows.
  destruct (mapping_data importJob); reflexivity.
Qed.

Lemma processImportJob_no_mapping st jobId importJob row rest :
  import_jobs st !! jobId = Some importJob ->
  mapping_data importJob = None ->
  preview_data importJob = row :: rest ->
  run st jobId
  = fail_job st jobId "Cannot read properties of null (reading 'date')".
Proof.
  intros Hjob Hmap Hrows. unfold processImportJob.
  rewrite Hjob, Hmap, Hrows. reflexivity.
Qed.

(** The three ways a run ends. *)
Lemma processImportJob_cases st jobId :
  run st jobId = st
  \/ (exists importJob,
        import_jobs st !! jobId = Some importJob
        /\ preview_data importJob = []
        /\ run st jobId = complete_job now st jobId importJob 0 0 0)
  \/ (exists importJob st1 msg,
        import_jobs st !! jobId = Some importJob
        /\ preview_data importJob <> []
        /\ (st1 = st
            \/ exists mapping row,
                 st1 = fst (process_row Date_parse importJob jobId mapping
                              st 0 row))
        /\ run st jobId = fail_job st1 jobId msg).
Proof.
  destruct (import_jobs st !! jobId) as [job|] eqn:Hjob.
  2:{ left. unfold processImportJob. rewrite Hjob. reflexivity. }
  right. destruct (preview_data job) as [|row rest] eqn:Hrows.
  { left. exists job. split; [reflexivity|]. split; [exact Hrows|].
    apply processImportJob_no_rows; assumption. }
  right. destruct (mapping_data job) as [mapping|] eqn:Hmap.
  - exists job, (fst (process_row Date_parse job jobId mapping st 0 row)),
      "idempotency_key is not defined".
    split; [reflexivity|]. split; [rewrite Hrows; discriminate|].
    split; [right; eauto|].
    apply (processImportJob_rows st jobId job mapping row rest); assumption.
  - exists job, st, "Cannot read properties of null (reading 'date')".
    split; [reflexivity|]. split; [rewrite Hrows; discriminate|].
    split; [left; reflexivity|].
    apply (processImportJob_no_mapping st jobId job row rest); assumption.
Qed.

(** What a run over a stored row leaves in the job's record. *)
Lemma fail_job_lookup st jobId msg job :
  import_jobs st !! jobId = Some job ->
  exists job',
    import_jobs (fail_job st jobId msg) !! jobId = Some job'
    /\ status job' = JobStatus.failed
    /\ error_log job' = Some msg
    /\ job_user_id job' = job_user_id job
    /\ filename job' = filename job
    /\ total_rows job' = total_rows job
    /\ preview_data job' = preview_data job
    /\ mapping_data job' = mapping_data job
    /\ processed_rows job' = processed_rows job
    /\ successful_rows job' = successful_rows job
    /\ failed_rows job' = failed_rows job
    /\ completed_at job' = completed_at job.
Proof.
  intros Hjob. unfold fail_job. cbn [import_jobs set_import_jobs].
  rewrite lookup_alter_eq, Hjob. eexists. split; [reflexivity|].
  cbn. auto 15.
Qed.

Lemma fail_job_other st jobId msg j :
  j <> jobId ->
  import_jobs (fail_job st jobId msg) !! j = import_jobs st !! j.
Proof.
  intros Hne. unfold fail_job. cbn [import_jobs set_import_jobs].
  apply lookup_alter_ne. congruence.
Qed.

Lemma complete_job_other st jobId importJob n s f j :
  j <> jobId ->
  import_jobs (complete_job now st jobId importJob n s f) !! j
  = import_jobs st !! j.
Proof.
  intros Hne. unfold complete_job. cbn.
  apply lookup_alter_ne. congruence.
Qed.

End ImportRun.

(** ** Import job lifecycle *)

(** C4 (counterexample).  Bob's job ["0"] has been processed and is
    [failed], a terminal state.  Configuring it again succeeds and makes
    it [configured]; asking to process it succeeds too, makes it
    [processing], and the background task runs a second time: it stores
    the transaction of row 1 once more. *)
Lemma terminal_job_is_configured_and_processed_again :
  let st := ImportScenario.after_bob in
  let again := snd (processImport IsoDate.parse 0 st "bob" "0") in
  (status <$> import_jobs st !! "0") = Some JobStatus.failed
  /\ fst (configureMapping st "bob" "0" ImportScenario.csv_mapping)
     = Success 200 None
  /\ (status <$> import_jobs
        (snd (configureMapping st "bob" "0" ImportScenario.csv_mapping)) !! "0")
     = Some JobStatus.configured
  /\ fst (processImport_start st "bob" "0") = Success 200 (Some "0")
  /\ (status <$> import_jobs (snd (processImport_start st "bob" "0")) !! "0")
     = Some JobStatus.processing
  /\ size (transactions st) = 1%nat
  /\ size (transactions again) = 2%nat
  /\ (tx_description <$> transactions again !! "1") = Some (Some "Groceries").
Proof. intros st again. repeat split; vm_compute; reflexivity. Qed.

(** C4 (amended).  [configureMapping] succeeds on every job the caller
    owns, whatever its status, stores the mapping and sets the status to
    [configured]; the request to process succeeds on every owned job that
    has a mapping, whatever its status, and sets it to [processing]; both
    answer 404 and change nothing when the job is missing or not owned
    (processing also when no mapping is stored).  No status is checked. *)
Theorem configure_and_process_check_no_status
    (st : Store) (userId jobId : string) (mapping : ColumnMapping) :
  let c := configureMapping st userId jobId mapping in
  let p := processImport_start st userId jobId in
  match find_job st jobId userId with
  | Some job =>
      fst c = Success 200 None
      /\ ((fun j => (status j, mapping_data j)) <$> import_jobs (snd c) !! jobId)
         = Some (JobStatus.configured, Some mapping)
      /\ match mapping_data job with
         | Some _ =>
             fst p = Success 200 (Some jobId)
             /\ (status <$> import_jobs (snd p) !! jobId)
                = Some JobStatus.processing
         | None => p = (Error 404 "Import job or mapping not found", st)
         end
  | None =>
      c = (Error 404 "Import job not found", st)
      /\ p = (Error 404 "Import job or mapping not found", st)
  end.
Proof.
  intros c p. unfold c, p, configureMapping, processImport_start.
  destruct (find_job st jobId userId) as [job|]; [|split; reflexivity].
  simpl. rewrite lookup_insert_eq. split; [reflexivity|].
  split; [reflexivity|].
  destruct (mapping_data job); [|reflexivity].
  simpl. rewrite lookup_insert_eq. split; reflexivity.
Qed.

(** ** Deduplication *)

(** A row whose key is recorded takes the duplicate branch, which
    throws while it builds the outcome: nothing is written. *)
Lemma recorded_key_records_nothing
    (Date_parse : string -> option Z) (importJob : import_job)
    (jobId : string) (mapping : ColumnMapping) (st : Store) (i : nat)
    (row : gmap string string) :
  (exists o, o ∈ import_rows st
             /\ idempotency_key o = generateIdempotencyKey row mapping) ->
  process_row Date_parse importJob jobId mapping st i row
  = (st, inl (ReferenceError "idempotency_key is not defined")).
Proof.
  intros H. apply existingRow_Some in H as [o Ho].
  rewrite process_row_eq, Ho. reflexivity.
Qed.

(** C5 (defect).  Bob imports a file of one row and then the same file
    once more.  The first run stores the transaction and throws before
    the outcome of the row is recorded, so the second run finds no key,
    takes the row for new and stores the same transaction again; no row
    is ever recorded [duplicate]. *)
Theorem reimported_row_is_stored_again :
  let st1 := ImportScenario.after_bob in
  let st2 := ImportScenario.after_bob_again in
  ((fun j => (job_user_id j, preview_data j)) <$> import_jobs st2 !! "0")
  = Some ("bob", [ImportScenario.groceries])
  /\ ((fun j => (job_user_id j, preview_data j)) <$> import_jobs st2 !! "1")
     = Some ("bob", [ImportScenario.groceries])
  /\ import_rows st1 = []
  /\ import_rows st2 = []
  /\ size (transactions st1) = 1%nat
  /\ size (transactions st2) = 2%nat
  /\ (exists t, transactions st2 !! "0" = Some t
                /\ transactions st2 !! "1" = Some t
                /\ tx_user_id t = "bob"
                /\ tx_description t = Some "Groceries")
  /\ ((fun j => (status j, error_log j)) <$> import_jobs st2 !! "1")
     = Some (JobStatus.failed, Some "idempotency_key is not defined").
Proof.
  intros st1 st2.
  split; [vm_compute; reflexivity|]. split; [vm_compute; reflexivity|].
  split; [vm_compute; reflexivity|]. split; [vm_compute; reflexivity|].
  split; [vm_compute; reflexivity|]. split; [vm_compute; reflexivity|].
  split; [|vm_compute; reflexivity].
  assert (H : transactions st2 !! "1" = transactions st2 !! "0")
    by (vm_compute; reflexivity).
  destruct (transactions st2 !! "0") as [t|] eqn:Ht;
    [|vm_compute in Ht; discriminate Ht].
  exists t. split; [reflexivity|]. split; [exact H|].
  assert (Hu : (tx_user_id <$> transactions st2 !! "0") = Some "bob")
    by (vm_compute; reflexivity).
  assert (Hd : (tx_description <$> transactions st2 !! "0")
               = Some (Some "Groceries"))
    by (vm_compute; reflexivity).
  rewrite Ht in Hu, Hd. simpl in Hu, Hd.
  split; congruence.
Qed.

(** ** Idempotency keys *)

Lemma generateIdempotencyKey_join row mapping :
  generateIdempotencyKey row mapping
  = MD5.hexdigest (JS.join "|" (Some <$> raw_fields row mapping)).
Proof.
  unfold generateIdempotencyKey, keyFields, raw_fields. f_equal.
Qed.

(** C6 (counterexample).  Two rows whose descriptions and references
    differ have the same key: ["Coffee|X1"] with an empty reference and
    ["Coffee"] with reference ["X1|"] join to the same string. *)
Lemma different_fields_same_key :
  raw_fields ImportScenario.pipe_in_description ImportScenario.csv_mapping
  <> raw_fields ImportScenario.pipe_in_reference ImportScenario.csv_mapping
  /\ generateIdempotencyKey ImportScenario.pipe_in_description
       ImportScenario.csv_mapping
     = generateIdempotencyKey ImportScenario.pipe_in_reference
         ImportScenario.csv_mapping.
Proof.
  split; [|vm_compute; reflexivity].
  intros H. vm_compute in H. discriminate H.
Qed.

(** C6 (amended).  The key is a function of the four raw fields (date,
    amount, description, reference or empty) alone: two rows whose four
    raw fields are byte-identical get the same key. *)
Theorem same_raw_fields_same_key
    (row1 row2 : gmap string string) (mapping1 mapping2 : ColumnMapping) :
  raw_fields row1 mapping1 = raw_fields row2 mapping2 ->
  generateIdempotencyKey row1 mapping1 = generateIdempotencyKey row2 mapping2.
Proof.
  intros H. rewrite !generateIdempotencyKey_join, H. reflexivity.
Qed.

Lemma same_raw_fields_same_key_witness :
  generateIdempotencyKey ImportScenario.groceries ImportScenario.csv_mapping
  = generateIdempotencyKey ImportScenario.groceries_renamed
      ImportScenario.other_mapping.
Proof.
  apply (same_raw_fields_same_key ImportScenario.groceries
           ImportScenario.groceries_renamed ImportScenario.csv_mapping
           ImportScenario.other_mapping).
  vm_compute. reflexivity.
Defined.

(** ** Rows the processor rejects, and rows it accepts *)

(** C7 (counterexample).  The amount ["abc"] is empty once stripped and
    does not parse as a number, yet the row is not rejected: the empty
    string is replaced by ['0'] and a transaction of amount 0 is
    stored. *)
Lemma amount_without_digits_is_imported_as_zero :
  let st := ImportScenario.import (Scenario.empty_store true) "alice" "a.csv"
              [ImportScenario.no_digits] in
  ImportScenario.no_digits !! "Amount" = Some "abc"
  /\ JS.strip_amount "abc" = ""
  /\ JS.parseFloat (JS.strip_amount "abc") = None
  /\ size (transactions st) = 1%nat
  /\ (tx_amount <$> transactions st !! "0") = Some (Q2Qc 0)
  /\ (tx_description <$> transactions st !! "0") = Some (Some "Mystery").
Proof.
  intros st. repeat split; first [vm_compute; reflexivity | qc_eval].
Qed.

(** C7 (amended).  A row the loop reaches whose amount is non-empty once
    stripped of everything but digits, ['-'] and ['.'], and does not
    parse as a number, gets no transaction and changes no account; when
    it is the first stored row of a job with a mapping, the whole run
    leaves the transactions as they were. *)
Theorem unparseable_amount_creates_no_transaction
    (Date_parse : string -> option Z) (now : Z) (st : Store) (jobId : string)
    (importJob : import_job) (mapping : ColumnMapping) (i : nat)
    (row : gmap string string) (s : string) :
  row !! m_amount mapping = Some s ->
  JS.strip_amount s <> "" ->
  JS.parseFloat (JS.strip_amount s) = None ->
  let r := process_row Date_parse importJob jobId mapping st i row in
  transactions (fst r) = transactions st
  /\ accounts (fst r) = accounts st
  /\ (import_jobs st !! jobId = Some importJob ->
      mapping_data importJob = Some mapping ->
      preview_data importJob !! 0%nat = Some row ->
      transactions (processImportJob Date_parse now st jobId)
      = transactions st).
Proof.
  intros Hs Hne Hnan r.
  assert (Hamt : parse_amount row mapping = None).
  { unfold parse_amount. rewrite Hs. simpl. unfold JS.or_else.
    destruct (String.eqb_spec (JS.strip_amount s) ""); [contradiction|].
    exact Hnan. }
  assert (Hstep : forall j, process_row Date_parse importJob jobId mapping
                              st j row
                            = (st, inl (ReferenceError
                                          "idempotency_key is not defined"))).
  { intros j. rewrite process_row_eq, Hamt.
    destruct (existingRow st _); reflexivity. }
  unfold r. rewrite Hstep. cbn [fst].
  split; [reflexivity|]. split; [reflexivity|].
  intros Hjob Hmap Hrow.
  destruct (preview_data importJob) as [|row0 rest] eqn:Hrows;
    [discriminate Hrow|].
  injection Hrow as ->.
  rewrite (processImportJob_rows Date_parse now st jobId importJob mapping
             row rest Hjob Hmap Hrows).
  rewrite Hstep. reflexivity.
Qed.

Lemma unparseable_amount_creates_no_transaction_witness :
  transactions
    (fst (process_row IsoDate.parse ImportScenario.broken_job "0"
            ImportScenario.csv_mapping ImportScenario.broken_processing 0
            ImportScenario.lone_minus))
  = transactions ImportScenario.broken_processing
  /\ transactions
       (processImportJob IsoDate.parse 0 ImportScenario.broken_processing "0")
     = transactions ImportScenario.broken_processing.
Proof.
  assert (Hs : ImportScenario.lone_minus
               !! m_amount ImportScenario.csv_mapping = Some "USD -")
    by (vm_compute; reflexivity).
  assert (Hne : JS.strip_amount "USD -" <> "")
    by (vm_compute; discriminate).
  assert (Hnan : JS.parseFloat (JS.strip_amount "USD -") = None)
    by (vm_compute; reflexivity).
  assert (Hjob : import_jobs ImportScenario.broken_processing !! "0"
                 = Some ImportScenario.broken_job)
    by (vm_compute; reflexivity).
  destruct (unparseable_amount_creates_no_transaction IsoDate.parse 0
              ImportScenario.broken_processing "0" ImportScenario.broken_job
              ImportScenario.csv_mapping 0 ImportScenario.lone_minus "USD -"
              Hs Hne Hnan) as (H1 & _ & H3).
  exact (conj H1 (H3 Hjob eq_refl eq_refl)).
Defined.

(** C8 (defect).  The processor inserts the transaction itself and checks
    neither sign nor type: the row with amount ["-5"] and type ["debit"]
    becomes a stored transaction of amount -5 and type ["debit"], which
    the create schema refuses. *)
Theorem import_creates_invalid_transaction :
  let st := ImportScenario.import (Scenario.empty_store true) "alice" "a.csv"
              [ImportScenario.refund] in
  size (transactions st) = 1%nat
  /\ exists t, transactions st !! "0" = Some t
               /\ tx_user_id t = "alice"
               /\ tx_amount t = Q2Qc (-5)
               /\ tx_type t = "debit"
               /\ ~ (0 < tx_amount t)%Qc
               /\ valid_type (tx_type t) = false.
Proof.
  intros st. split; [vm_compute; reflexivity|].
  destruct (transactions st !! "0") as [t|] eqn:Ht;
    [|vm_compute in Ht; discriminate Ht].
  exists t. split; [reflexivity|].
  assert (Hu : tx_user_id t = "alice").
  { assert (H : tx_user_id <$> transactions st !! "0" = Some "alice")
      by (vm_compute; reflexivity).
    rewrite Ht in H. injection H as H. exact H. }
  assert (Hamt : tx_amount t = Q2Qc (-5)).
  { assert (H : tx_amount <$> transactions st !! "0" = Some (Q2Qc (-5)))
      by qc_eval.
    rewrite Ht in H. injection H as H. exact H. }
  assert (Hty : tx_type t = "debit").
  { assert (H : tx_type <$> transactions st !! "0" = Some "debit")
      by (vm_compute; reflexivity).
    rewrite Ht in H. injection H as H. exact H. }
  rewrite Hamt, Hty. repeat split; try reflexivity; try assumption.
  intros H. vm_compute in H. discriminate H.
Qed.

(** ** The counters of a run *)

(** C10 (defect).  A run over a job with a mapping and a stored row
    leaves the loop in its first iteration, whatever the row is (new,
    invalid, or one whose key is recorded): the job ends [failed] with
    the message of the error, its three counters and its completion time
    are not written, and no notification is created.  One row was
    visited, and the counters still say what they said before. *)
Theorem aborted_run_writes_no_counters
    (Date_parse : string -> option Z) (now : Z) (st : Store) (jobId : string)
    (importJob : import_job) (mapping : ColumnMapping)
    (row : gmap string string) (rest : list (gmap string string)) :
  import_jobs st !! jobId = Some importJob ->
  mapping_data importJob = Some mapping ->
  preview_data importJob = row :: rest ->
  let st' := processImportJob Date_parse now st jobId in
  exists job',
    import_jobs st' !! jobId = Some job'
    /\ status job' = JobStatus.failed
    /\ error_log job' = Some "idempotency_key is not defined"
    /\ processed_rows job' = processed_rows importJob
    /\ successful_rows job' = successful_rows importJob
    /\ failed_rows job' = failed_rows importJob
    /\ completed_at job' = completed_at importJob
    /\ notifications st' = notifications st
    /\ import_rows st' = import_rows st.
Proof.
  intros Hjob Hmap Hrows st'. unfold st'.
  rewrite (processImportJob_rows Date_parse now st jobId importJob mapping
             row rest Hjob Hmap Hrows).
  destruct (process_row_frame Date_parse importJob jobId mapping st 0 row)
    as (_ & _ & Hj & Hr & Hn).
  cbv zeta in Hj, Hr, Hn.
  set (st1 := fst (process_row Date_parse importJob jobId mapping st 0 row))
    in *.
  assert (Hjob1 : import_jobs st1 !! jobId = Some importJob)
    by (rewrite Hj; exact Hjob).
  destruct (fail_job_lookup st1 jobId "idempotency_key is not defined"
              importJob Hjob1)
    as (job' & H1 & H2 & H3 & _ & _ & _ & _ & _ & H9 & H10 & H11 & H12).
  exists job'. split; [exact H1|]. split; [exact H2|]. split; [exact H3|].
  split; [exact H9|]. split; [exact H10|]. split; [exact H11|].
  split; [exact H12|]. split; [exact Hn | exact Hr].
Qed.

Lemma aborted_run_writes_no_counters_witness :
  exists job',
    import_jobs (processImportJob IsoDate.parse 0
                   ImportScenario.bank_processing "0") !! "0" = Some job'
    /\ status job' = JobStatus.failed
    /\ processed_rows job' = 0%nat
    /\ successful_rows job' = 0%nat
    /\ failed_rows job' = 0%nat
    /\ notifications (processImportJob IsoDate.parse 0
                        ImportScenario.bank_processing "0") = [].
Proof.
  assert (Hjob : import_jobs ImportScenario.bank_processing !! "0"
                 = Some ImportScenario.bank_job)
    by (vm_compute; reflexivity).
  destruct (aborted_run_writes_no_counters IsoDate.parse 0
              ImportScenario.bank_processing "0" ImportScenario.bank_job
              ImportScenario.csv_mapping ImportScenario.groceries
              [ImportScenario.lone_minus; ImportScenario.groceries]
              Hjob eq_refl eq_refl)
    as (job' & H1 & H2 & _ & H4 & H5 & H6 & _ & H8 & _).
  exists job'.
  exact (conj H1 (conj H2 (conj H4 (conj H5 (conj H6 H8))))).
Defined.

(** The run of the witness, evaluated: the first row's transaction is
    stored, nothing else is written. *)
Example run_over_three_rows :
  let st := processImportJob IsoDate.parse 0
              ImportScenario.bank_processing "0" in
  import_rows st = []
  /\ notifications st = []
  /\ size (transactions st) = 1%nat
  /\ ((fun j => (status j, total_rows j, processed_rows j, successful_rows j,
                 failed_rows j, error_log j))
        <$> import_jobs st !! "0")
     = Some (JobStatus.failed, 3, 0, 0, 0,
             Some "idempotency_key is not defined")%nat.
Proof. intros st. repeat split; vm_compute; reflexivity. Qed.

(** ** The MD5 model against the RFC 1321 test suite *)

Example md5_empty : MD5.hexdigest "" = "d41d8cd98f00b204e9800998ecf8427e".
Proof. vm_compute. reflexivity. Qed.

Example md5_abc : MD5.hexdigest "abc" = "900150983cd24fb0d6963f7d28e17f72".
Proof. vm_compute. reflexivity. Qed.

Example md5_two_blocks :
  MD5.hexdigest
    "12345678901234567890123456789012345678901234567890123456789012345678901234567890"
  = "57edf4a22be3c955ac49da2e2107b67a".
Proof. vm_compute. reflexivity. Qed.

(** * Further properties of the transaction controller *)

Lemma increment_balance_owner st id d st' :
  increment_balance st id d = Some st' ->
  forall a, (acc_user_id <$> accounts st' !! a)
            = (acc_user_id <$> accounts st !! a).
Proof.
  unfold increment_balance.
  destruct (accounts st !! id) as [acc|] eqn:Hid; [|discriminate].
  intros [= <-] a. simpl. destruct (decide (a = id)) as [->|Hne].
  - rewrite lookup_insert_eq, Hid. reflexivity.
  - rewrite lookup_insert_ne by congruence. reflexivity.
Qed.

Lemma revert_old_frame st old st1 :
  revert_old st old = Some st1 ->
  (forall a, (acc_user_id <$> accounts st1 !! a)
             = (acc_user_id <$> accounts st !! a))
  /\ transactions st1 = transactions st
  /\ import_jobs st1 = import_jobs st
  /\ import_rows st1 = import_rows st.
Proof.
  unfold revert_old. destruct (JS.if_truthy (tx_account_id old)) as [a|].
  - intros H. pose proof (increment_balance_owner _ _ _ _ H) as Ho.
    apply increment_balance_spec in H as (_ & Ht & _ & _ & _ & Hj & Hr).
    auto.
  - intros [= <-]. auto.
Qed.

Lemma apply_new_frame st b st3 :
  apply_new st b = Some st3 ->
  (forall a, (acc_user_id <$> accounts st3 !! a)
             = (acc_user_id <$> accounts st !! a))
  /\ transactions st3 = transactions st
  /\ import_jobs st3 = import_jobs st
  /\ import_rows st3 = import_rows st.
Proof.
  unfold apply_new.
  destruct (JS.if_truthy (default None (u_account_id b))) as [a|].
  - destruct (u_amount b) as [m|]; [|discriminate].
    intros H. pose proof (increment_balance_owner _ _ _ _ H) as Ho.
    apply increment_balance_spec in H as (_ & Ht & _ & _ & _ & Hj & Hr).
    auto.
  - intros [= <-]. auto.
Qed.

(** What a successful or failed update does, for any request. *)
Lemma updateTransaction_cases st userId id b old :
  transactions st !! id = Some old -> tx_user_id old = userId ->
  updateTransaction st userId id b
  = (Error 500 "Failed to update transaction", st)
  \/ exists st1 st3,
       revert_old st old = Some st1
       /\ fk_ok st1 (default None (u_account_id b)) = true
       /\ apply_new (set_transactions st1
                       (<[id := apply_update old b]> (transactions st1))) b
          = Some st3
       /\ updateTransaction st userId id b = (Success 200 (Some id), st3).
Proof.
  intros Hold Hu. unfold updateTransaction.
  rewrite Hold, Hu, String.eqb_refl.
  destruct (revert_old st old) as [st1|] eqn:Hrev; [|left; reflexivity].
  simpl. unfold persist_update.
  destruct (fk_ok st1 (default None (u_account_id b))) eqn:Hfk;
    [|left; reflexivity].
  simpl.
  destruct (apply_new _ b) as [st3|] eqn:Hnew; [|left; reflexivity].
  right. exists st1, st3. auto.
Qed.

(** X1.  Creating a transaction and deleting it again gives back the
    store: the balance of the referenced account returns to its exact
    value and the row is gone. *)
Theorem create_then_delete_restores_store
    (st : Store) (userId : string) (now : Z) (b : create_body) :
  (forall a, c_account_id b = Some a ->
             a <> "" /\ is_Some (accounts st !! a)) ->
  let c := createTransaction st userId now b in
  fst c = Success 201 (Some (new_transaction_id st))
  /\ deleteTransaction (snd c) userId (new_transaction_id st)
     = (Success 200 None, st).
Proof.
  intros Hacc c. unfold c, createTransaction.
  pose proof (new_transaction_id_fresh st) as Hfresh.
  set (id := new_transaction_id st) in *.
  destruct (c_account_id b) as [a|] eqn:Ha.
  - destruct (Hacc a eq_refl) as [Hne [acc Hlk]].
    unfold fk_ok. rewrite Hlk.
    rewrite bool_decide_eq_true_2 by eauto. rewrite orb_true_r.
    rewrite (if_truthy_nonempty a Hne). simpl. rewrite Hlk.
    unfold increment_balance. simpl. rewrite Hlk. simpl.
    split; [reflexivity|].
    unfold deleteTransaction. simpl. rewrite lookup_insert_eq. simpl.
    rewrite String.eqb_refl. unfold revert_old. simpl.
    rewrite (if_truthy_nonempty a Hne).
    unfold increment_balance. simpl. rewrite lookup_insert_eq. simpl.
    rewrite insert_insert_eq, delete_insert_id by exact Hfresh.
    f_equal. destruct st as [fk accs txs jobs rows notes]. simpl in *.
    unfold set_transactions, set_accounts. simpl. f_equal.
    apply insert_id. rewrite Hlk. f_equal. destruct acc as [o bal]. simpl.
    f_equal. unfold balanceChange.
    destruct (String.eqb (c_type b) "income"); ring.
  - simpl. split; [reflexivity|].
    unfold deleteTransaction. simpl. rewrite lookup_insert_eq. simpl.
    rewrite String.eqb_refl. unfold revert_old. simpl.
    rewrite delete_insert_id by exact Hfresh.
    destruct st; reflexivity.
Qed.

Lemma create_then_delete_restores_store_witness :
  deleteTransaction
    (snd (createTransaction Scenario.ledger0 "alice" 0
            Scenario.income_100_on_A))
    "alice" (new_transaction_id Scenario.ledger0)
  = (Success 200 None, Scenario.ledger0).
Proof.
  refine (proj2 (create_then_delete_restores_store Scenario.ledger0 "alice" 0
                   Scenario.income_100_on_A _)).
  intros a [= <-]. split; [discriminate | vm_compute; eauto].
Defined.

(** X2.  A transaction is visible to its owner only: reading, updating
    or deleting a transaction that does not exist or belongs to another
    user answers 404 and changes nothing, and only then. *)
Theorem foreign_transaction_is_not_found
    (st : Store) (userId id : string) (b : update_body) :
  let owned :=
    exists t, transactions st !! id = Some t /\ tx_user_id t = userId in
  (~ owned <->
   getTransaction st userId id = (Error 404 "Transaction not found", None))
  /\ (~ owned <->
      updateTransaction st userId id b
      = (Error 404 "Transaction not found", st))
  /\ (~ owned <->
      deleteTransaction st userId id
      = (Error 404 "Transaction not found", st)).
Proof.
  intros owned. unfold owned, getTransaction, updateTransaction,
    deleteTransaction.
  destruct (transactions st !! id) as [t|] eqn:Ht.
  - destruct (String.eqb_spec (tx_user_id t) userId) as [He|Hn].
    + repeat split; intros H; try (exfalso; apply H; eauto).
      * discriminate H.
      * destruct (st1 ← revert_old st t;
                  st2 ← persist_update st1 id t b; apply_new st2 b);
          discriminate H.
      * destruct (revert_old st t); discriminate H.
    + repeat split; try reflexivity;
        intros _ (t' & [= <-] & Hu); contradiction.
  - repeat split; try reflexivity; intros _ (t' & Hd & _); discriminate.
Qed.

(** X3.  An update that names an account that does not exist is
    rejected with 500 and rolled back: the row and every balance,
    the old account's included, stay as they were. *)
Theorem update_to_missing_account_rolls_back
    (st : Store) (userId id : string) (b : update_body)
    (old : transaction) (B : string) :
  transactions st !! id = Some old -> tx_user_id old = userId ->
  u_account_id b = Some (Some B) -> B <> "" -> accounts st !! B = None ->
  updateTransaction st userId id b
  = (Error 500 "Failed to update transaction", st).
Proof.
  intros Hold Hu HB Hne Hmiss.
  destruct (updateTransaction_cases st userId id b old Hold Hu)
    as [H | (st1 & st3 & Hrev & Hfk & Hnew & _)]; [exact H|].
  exfalso. unfold apply_new in Hnew. rewrite HB in Hnew. simpl in Hnew.
  rewrite (if_truthy_nonempty B Hne) in Hnew.
  destruct (u_amount b) as [m|]; [|discriminate].
  unfold increment_balance in Hnew. simpl in Hnew.
  assert (Hm1 : accounts st1 !! B = None).
  { unfold revert_old in Hrev.
    destruct (JS.if_truthy (tx_account_id old)) as [a|].
    - apply increment_balance_spec in Hrev as (_ & _ & _ & Hdom & _).
      destruct (accounts st1 !! B) eqn:E; [|reflexivity].
      destruct (proj1 (Hdom B)) as [x Hx]; [eauto | congruence].
    - injection Hrev as <-. exact Hmiss. }
  rewrite Hm1 in Hnew. discriminate.
Qed.

Lemma update_to_missing_account_rolls_back_witness :
  updateTransaction Scenario.ledger1 "alice" "0"
    {| u_account_id := Some (Some "Z"); u_category_id := None;
       u_amount := Some (Q2Qc 100); u_type := Some "income";
       u_description := None; u_tx_date := None; u_mode := None;
       u_reference := None; u_notes := None |}
  = (Error 500 "Failed to update transaction", Scenario.ledger1).
Proof.
  eapply (update_to_missing_account_rolls_back Scenario.ledger1 "alice" "0"
            _ _ "Z").
  - vm_compute. reflexivity.
  - vm_compute. reflexivity.
  - reflexivity.
  - discriminate.
  - vm_compute. reflexivity.
Defined.

(** The balances after an update that restates account, amount and type
    and succeeds. *)
Lemma update_full_balances st userId id old b st' :
  full_update b -> ids_nonempty st ->
  transactions st !! id = Some old -> tx_user_id old = userId ->
  updateTransaction st userId id b = (Success 200 (Some id), st') ->
  transactions st' = <[id := apply_update old b]> (transactions st)
  /\ same_account_ids st st'
  /\ forall a bal, balance_of st a = Some bal ->
       balance_of st' a
       = Some (bal - contribution a old
               + contribution a (apply_update old b))%Qc.
Proof.
  intros ([x Hx] & [m Hm] & [t Ht]) Hne Hold Hu Hres.
  destruct (updateTransaction_cases st userId id b old Hold Hu)
    as [H | (st1 & st3 & Hrev & Hfk & Hnew & Hok)].
  { rewrite H in Hres. discriminate. }
  rewrite Hok in Hres. injection Hres as <-.
  apply revert_old_spec in Hrev as (Hb1 & Htx1 & _ & Hdom1); [|assumption].
  set (st2 := set_transactions st1 _) in Hnew.
  assert (Hne2 : ids_nonempty st2)
    by (apply (same_account_ids_nonempty st); assumption).
  apply (apply_new_spec st2 b old x m t) in Hnew
    as (Hb3 & Htx3 & _ & Hdom3); try assumption.
  split; [rewrite Htx3; simpl; rewrite Htx1; reflexivity|].
  split.
  - intros a. rewrite (Hdom3 a). exact (Hdom1 a).
  - intros a bal Ha. apply Hb3. exact (Hb1 a bal Ha).
Qed.

(** X4.  An update that restates account, amount and type either fails
    with 500 and changes nothing, or replaces the row and changes every
    account's balance by the new contribution of the transaction minus
    its old one. *)
Theorem update_full_effect
    (st : Store) (userId id : string) (old : transaction) (b : update_body) :
  full_update b -> ids_nonempty st ->
  transactions st !! id = Some old -> tx_user_id old = userId ->
  let r := updateTransaction st userId id b in
  r = (Error 500 "Failed to update transaction", st)
  \/ (fst r = Success 200 (Some id)
      /\ transactions (snd r) = <[id := apply_update old b]> (transactions st)
      /\ forall a bal, balance_of st a = Some bal ->
           balance_of (snd r) a
           = Some (bal - contribution a old
                   + contribution a (apply_update old b))%Qc).
Proof.
  intros Hfull Hne Hold Hu r.
  destruct (updateTransaction_cases st userId id b old Hold Hu)
    as [H | (st1 & st3 & _ & _ & _ & Hok)]; [left; exact H|].
  right. unfold r. rewrite Hok. simpl.
  destruct (update_full_balances st userId id old b st3 Hfull Hne Hold Hu Hok)
    as (Htx & _ & Hbal).
  auto.
Qed.

Lemma update_full_effect_witness :
  let r := updateTransaction Scenario.ledger1 "alice" "0"
             Scenario.move_to_B_full in
  r = (Error 500 "Failed to update transaction", Scenario.ledger1)
  \/ (fst r = Success 200 (Some "0")
      /\ transactions (snd r)
         = <[ "0" := apply_update
                       {| tx_user_id := "alice"; tx_account_id := Some "A";
                          tx_category_id := None; tx_amount := Q2Qc 100;
                          tx_type := "income"; tx_description := None;
                          tx_date := 0; tx_mode := Some "cash";
                          tx_reference := None; tx_notes := None |}
                       Scenario.move_to_B_full ]>
             (transactions Scenario.ledger1)
      /\ forall a bal, balance_of Scenario.ledger1 a = Some bal ->
           balance_of (snd r) a
           = Some (bal - contribution a
                           {| tx_user_id := "alice"; tx_account_id := Some "A";
                              tx_category_id := None; tx_amount := Q2Qc 100;
                              tx_type := "income"; tx_description := None;
                              tx_date := 0; tx_mode := Some "cash";
                              tx_reference := None; tx_notes := None |}
                   + contribution a
                       (apply_update
                          {| tx_user_id := "alice"; tx_account_id := Some "A";
                             tx_category_id := None; tx_amount := Q2Qc 100;
                             tx_type := "income"; tx_description := None;
                             tx_date := 0; tx_mode := Some "cash";
                             tx_reference := None; tx_notes := None |}
                          Scenario.move_to_B_full))%Qc).
Proof.
  apply (update_full_effect Scenario.ledger1 "alice" "0").
  - unfold full_update; simpl; eauto.
  - reflexivity.
  - vm_compute. reflexivity.
  - reflexivity.
Defined.

(** X5.  Saving a transaction with its account, amount and type
    unchanged leaves every balance as it was, whatever else the request
    changes. *)
Theorem update_with_same_ledger_fields_keeps_balances
    (st : Store) (userId id : string) (old : transaction) (b : update_body) :
  ids_nonempty st ->
  transactions st !! id = Some old -> tx_user_id old = userId ->
  u_account_id b = Some (tx_account_id old) ->
  u_amount b = Some (tx_amount old) ->
  u_type b = Some (tx_type old) ->
  forall a, balance_of (snd (updateTransaction st userId id b)) a
            = balance_of st a.
Proof.
  intros Hne Hold Hu Ha Hm Ht a.
  assert (Hfull : full_update b)
    by (unfold full_update; rewrite Ha, Hm, Ht; eauto).
  destruct (updateTransaction_cases st userId id b old Hold Hu)
    as [H | (st1 & st3 & _ & _ & _ & Hok)]; [rewrite H; reflexivity|].
  rewrite Hok. simpl.
  destruct (update_full_balances st userId id old b st3 Hfull Hne Hold Hu Hok)
    as (_ & Hdom & Hbal).
  destruct (balance_of st a) as [bal|] eqn:Hb.
  - rewrite (Hbal a bal Hb). f_equal.
    assert (Hc : contribution a (apply_update old b) = contribution a old).
    { unfold contribution, signed_amount, apply_update. simpl.
      rewrite Ha, Hm, Ht. reflexivity. }
    rewrite Hc. ring.
  - unfold balance_of in *. destruct (accounts st3 !! a) eqn:E; [|reflexivity].
    destruct (proj1 (Hdom a)) as [y Hy]; [eauto|].
    rewrite Hy in Hb. discriminate.
Qed.

Lemma update_with_same_ledger_fields_keeps_balances_witness :
  balance_of
    (snd (updateTransaction Scenario.ledger1 "alice" "0"
            {| u_account_id := Some (Some "A"); u_category_id := None;
               u_amount := Some (Q2Qc 100); u_type := Some "income";
               u_description := Some "salary"; u_tx_date := None;
               u_mode := None; u_reference := None; u_notes := None |})) "A"
  = balance_of Scenario.ledger1 "A".
Proof.
  eapply (update_with_same_ledger_fields_keeps_balances
            Scenario.ledger1 "alice" "0" _ _).
  - reflexivity.
  - vm_compute. reflexivity.
  - reflexivity.
  - reflexivity.
  - reflexivity.
  - reflexivity.
Defined.

Lemma createTransaction_frame st userId now b :
  let st' := snd (createTransaction st userId now b) in
  (forall a, (acc_user_id <$> accounts st' !! a)
             = (acc_user_id <$> accounts st !! a))
  /\ import_jobs st' = import_jobs st
  /\ import_rows st' = import_rows st
  /\ forall id, id <> new_transaction_id st ->
                transactions st' !! id = transactions st !! id.
Proof.
  unfold createTransaction.
  destruct (fk_ok st (c_account_id b)); [|simpl; auto].
  set (st1 := set_transactions st _).
  assert (H1 : forall id, id <> new_transaction_id st ->
                          transactions st1 !! id = transactions st !! id)
    by (intros id Hne; simpl; rewrite lookup_insert_ne by congruence;
        reflexivity).
  destruct (JS.if_truthy (c_account_id b)) as [a|]; [|simpl; auto].
  destruct (accounts st1 !! a) eqn:Ha; [|simpl; auto].
  destruct (increment_balance st1 a _) as [st2|] eqn:Hinc; [|simpl; auto].
  pose proof (increment_balance_owner _ _ _ _ Hinc) as Ho.
  apply increment_balance_spec in Hinc as (_ & Ht & _ & _ & _ & Hj & Hr).
  simpl. repeat split; try assumption. intros id Hne. rewrite Ht. auto.
Qed.

(** X6.  No transaction mutation creates or deletes an account, changes
    an account's owner, or touches the import tables. *)
Theorem mutations_keep_accounts_and_imports (st : Store) (m : mutation) :
  let st' := apply_mutation st m in
  (forall a, (acc_user_id <$> accounts st' !! a)
             = (acc_user_id <$> accounts st !! a))
  /\ import_jobs st' = import_jobs st
  /\ import_rows st' = import_rows st.
Proof.
  destruct m as [u now b | u id b | u id]; simpl.
  - destruct (createTransaction_frame st u now b) as (H1 & H2 & H3 & _). auto.
  - unfold updateTransaction.
    destruct (transactions st !! id) as [old|] eqn:Hold; [|simpl; auto].
    destruct (String.eqb_spec (tx_user_id old) u) as [Hu|]; [|simpl; auto].
    destruct (updateTransaction_cases st u id b old Hold Hu)
      as [H | (st1 & st3 & Hrev & _ & Hnew & Hok)].
    + unfold updateTransaction in H. rewrite Hold, Hu, String.eqb_refl in H.
      rewrite H. simpl. auto.
    + unfold updateTransaction in Hok. rewrite Hold, Hu, String.eqb_refl in Hok.
      rewrite Hok. simpl.
      apply revert_old_frame in Hrev as (Ho1 & _ & Hj1 & Hr1).
      apply apply_new_frame in Hnew as (Ho3 & _ & Hj3 & Hr3).
      simpl in *. repeat split; [|congruence..].
      intros a. rewrite Ho3. simpl. apply Ho1.
  - unfold deleteTransaction.
    destruct (transactions st !! id) as [old|] eqn:Hold; [|simpl; auto].
    destruct (String.eqb (tx_user_id old) u); [|simpl; auto].
    destruct (revert_old st old) as [st1|] eqn:Hrev; [|simpl; auto].
    apply revert_old_frame in Hrev as (Ho1 & _ & Hj1 & Hr1). simpl. auto.
Qed.

(** X7.  A transaction mutation writes at most one row: every
    transaction other than the one created, updated or deleted is left as
    it was. *)
Theorem mutation_leaves_other_rows (st : Store) (m : mutation) (id : string) :
  id <> touched_id st m ->
  transactions (apply_mutation st m) !! id = transactions st !! id.
Proof.
  destruct m as [u now b | u i b | u i]; simpl; intros Hne.
  - destruct (createTransaction_frame st u now b) as (_ & _ & _ & H). auto.
  - unfold updateTransaction.
    destruct (transactions st !! i) as [old|] eqn:Hold; [|reflexivity].
    destruct (String.eqb_spec (tx_user_id old) u) as [Hu|]; [|reflexivity].
    destruct (updateTransaction_cases st u i b old Hold Hu)
      as [H | (st1 & st3 & Hrev & _ & Hnew & Hok)].
    + unfold updateTransaction in H. rewrite Hold, Hu, String.eqb_refl in H.
      rewrite H. reflexivity.
    + unfold updateTransaction in Hok. rewrite Hold, Hu, String.eqb_refl in Hok.
      rewrite Hok. simpl.
      apply revert_old_frame in Hrev as (_ & Ht1 & _).
      apply apply_new_frame in Hnew as (_ & Ht3 & _).
      rewrite Ht3. simpl. rewrite lookup_insert_ne by congruence.
      rewrite Ht1. reflexivity.
  - unfold deleteTransaction.
    destruct (transactions st !! i) as [old|] eqn:Hold; [|reflexivity].
    destruct (String.eqb (tx_user_id old) u); [|reflexivity].
    destruct (revert_old st old) as [st1|] eqn:Hrev; [|reflexivity].
    apply revert_old_frame in Hrev as (_ & Ht1 & _). simpl.
    rewrite lookup_delete_ne by congruence. rewrite Ht1. reflexivity.
Qed.

Lemma mutation_leaves_other_rows_witness :
  transactions
    (apply_mutation Scenario.ledger1
       (Create "alice" 0 (Scenario.expense_30_on "B"))) !! "0"
  = transactions Scenario.ledger1 !! "0".
Proof.
  apply (mutation_leaves_other_rows Scenario.ledger1
           (Create "alice" 0 (Scenario.expense_30_on "B")) "0").
  vm_compute. discriminate.
Defined.

(** X8.  Deleting one's transaction whose account exists removes the
    row and takes its signed amount back off that account, exactly; every
    other balance stays, and deleting it a second time answers 404. *)
Theorem delete_removes_row_and_reverts
    (st : Store) (userId id : string) (old : transaction) :
  ids_nonempty st ->
  transactions st !! id = Some old -> tx_user_id old = userId ->
  (forall a, tx_account_id old = Some a -> a <> "" ->
             is_Some (accounts st !! a)) ->
  exists st',
    deleteTransaction st userId id = (Success 200 None, st')
    /\ transactions st' = delete id (transactions st)
    /\ (forall a bal, balance_of st a = Some bal ->
          balance_of st' a = Some (bal - contribution a old)%Qc)
    /\ deleteTransaction st' userId id
       = (Error 404 "Transaction not found", st').
Proof.
  intros Hne Hold Hu Hacc. unfold deleteTransaction at 1.
  rewrite Hold, Hu, String.eqb_refl.
  destruct (revert_old st old) as [st1|] eqn:Hrev.
  - pose proof Hrev as Hrev'.
    apply revert_old_spec in Hrev as (Hb & Htx & _ & _); [|assumption].
    eexists. split; [reflexivity|]. simpl. rewrite Htx.
    split; [reflexivity|]. split; [exact Hb|].
    unfold deleteTransaction. simpl. rewrite lookup_delete_eq.
    reflexivity.
  - exfalso. unfold revert_old in Hrev.
    destruct (JS.if_truthy (tx_account_id old)) as [a|] eqn:E;
      [|discriminate].
    apply if_truthy_Some in E as [E1 E2].
    destruct (Hacc a E1 E2) as [acc Hlk].
    unfold increment_balance in Hrev. rewrite Hlk in Hrev. discriminate.
Qed.

Lemma delete_removes_row_and_reverts_witness :
  exists st',
    deleteTransaction Scenario.ledger1 "alice" "0" = (Success 200 None, st')
    /\ transactions st' = delete "0" (transactions Scenario.ledger1).
Proof.
  destruct (delete_removes_row_and_reverts Scenario.ledger1 "alice" "0"
              {| tx_user_id := "alice"; tx_account_id := Some "A";
                 tx_category_id := None; tx_amount := Q2Qc 100;
                 tx_type := "income"; tx_description := None;
                 tx_date := 0; tx_mode := Some "cash";
                 tx_reference := None; tx_notes := None |})
    as (st' & H1 & H2 & _).
  - reflexivity.
  - vm_compute. reflexivity.
  - reflexivity.
  - intros a [= <-] _. vm_compute. eauto.
  - exists st'. exact (conj H1 H2).
Defined.

(** * Further properties of the import controller *)

Lemma increment_balance_notifications st id d st' :
  increment_balance st id d = Some st' -> notifications st' = notifications st.
Proof.
  unfold increment_balance. destruct (accounts st !! id); [|discriminate].
  intros [= <-]. reflexivity.
Qed.

Lemma revert_old_notifications st old st1 :
  revert_old st old = Some st1 -> notifications st1 = notifications st.
Proof.
  unfold revert_old. destruct (JS.if_truthy (tx_account_id old)) as [a|].
  - apply increment_balance_notifications.
  - intros [= <-]. reflexivity.
Qed.

Lemma apply_new_notifications st b st3 :
  apply_new st b = Some st3 -> notifications st3 = notifications st.
Proof.
  unfold apply_new.
  destruct (JS.if_truthy (default None (u_account_id b))) as [a|].
  - destruct (u_amount b) as [m|]; [|discriminate].
    apply increment_balance_notifications.
  - intros [= <-]. reflexivity.
Qed.

(** The transaction controller writes none of the import tables and no
    notification. *)
Lemma apply_mutation_imports st m :
  let st' := apply_mutation st m in
  import_jobs st' = import_jobs st
  /\ import_rows st' = import_rows st
  /\ notifications st' = notifications st.
Proof.
  destruct m as [u now b | u id b | u id]; simpl.
  - destruct (createTransaction_frame st u now b) as (_ & H2 & H3 & _).
    split; [exact H2|]. split; [exact H3|].
    unfold createTransaction.
    destruct (fk_ok st (c_account_id b)); [|reflexivity].
    set (st1 := set_transactions st _).
    destruct (JS.if_truthy (c_account_id b)) as [a|]; [|reflexivity].
    destruct (accounts st1 !! a) eqn:Ha; [|reflexivity].
    destruct (increment_balance st1 a _) as [st2|] eqn:Hinc; [|reflexivity].
    simpl. apply (increment_balance_notifications _ _ _ _ Hinc).
  - unfold updateTransaction.
    destruct (transactions st !! id) as [old|] eqn:Hold; [|simpl; auto].
    destruct (String.eqb_spec (tx_user_id old) u) as [Hu|]; [|simpl; auto].
    destruct (updateTransaction_cases st u id b old Hold Hu)
      as [H | (st1 & st3 & Hrev & _ & Hnew & Hok)].
    + unfold updateTransaction in H. rewrite Hold, Hu, String.eqb_refl in H.
      rewrite H. simpl. auto.
    + unfold updateTransaction in Hok. rewrite Hold, Hu, String.eqb_refl in Hok.
      rewrite Hok. simpl.
      pose proof (revert_old_notifications _ _ _ Hrev) as Hn1.
      pose proof (apply_new_notifications _ _ _ Hnew) as Hn3.
      apply revert_old_frame in Hrev as (_ & _ & Hj1 & Hr1).
      apply apply_new_frame in Hnew as (_ & _ & Hj3 & Hr3).
      simpl in *. repeat split; congruence.
  - unfold deleteTransaction.
    destruct (transactions st !! id) as [old|] eqn:Hold; [|simpl; auto].
    destruct (String.eqb (tx_user_id old) u); [|simpl; auto].
    destruct (revert_old st old) as [st1|] eqn:Hrev; [|simpl; auto].
    pose proof (revert_old_notifications _ _ _ Hrev) as Hn1.
    apply revert_old_frame in Hrev as (_ & _ & Hj1 & Hr1). simpl. auto.
Qed.

Lemma find_job_Some st jobId userId job :
  find_job st jobId userId = Some job ->
  import_jobs st !! jobId = Some job /\ job_user_id job = userId.
Proof.
  unfold find_job. destruct (import_jobs st !! jobId) as [j|]; [|discriminate].
  destruct (String.eqb_spec (job_user_id j) userId); [|discriminate].
  intros [= <-]. auto.
Qed.

Lemma balance_invariant_transfer st st' :
  accounts st' = accounts st ->
  (forall a, ledger_sum a (transactions st') = ledger_sum a (transactions st)) ->
  balance_invariant st -> balance_invariant st'.
Proof.
  intros Ha Hsum Hinv a bal Hbal. rewrite Hsum. apply Hinv.
  unfold balance_of in *. rewrite <- Ha. exact Hbal.
Qed.

Section ImportTransactions.

Variable Date_parse : string -> option Z.
Variable now : Z.

(** What the request to process answers, and the store it leaves once
    the background task has ended. *)
Lemma processImport_cases st userId jobId :
  processImport Date_parse now st userId jobId
  = (Error 404 "Import job or mapping not found", st)
  \/ exists job mapping,
       import_jobs st !! jobId = Some job
       /\ job_user_id job = userId
       /\ mapping_data job = Some mapping
       /\ let jobP := with_status job JobStatus.processing in
          let st1 := set_import_jobs st (<[jobId := jobP]> (import_jobs st)) in
          (preview_data job = []
           /\ processImport Date_parse now st userId jobId
              = (Success 200 (Some jobId),
                 complete_job now st1 jobId jobP 0 0 0))
          \/ (exists row rest,
                preview_data job = row :: rest
                /\ processImport Date_parse now st userId jobId
                   = (Success 200 (Some jobId),
                      fail_job
                        (fst (process_row Date_parse jobP jobId mapping
                                st1 0 row))
                        jobId "idempotency_key is not defined")).
Proof.
  unfold processImport, processImport_start.
  destruct (find_job st jobId userId) as [job|] eqn:Hfind; [|left; reflexivity].
  destruct (mapping_data job) as [mapping|] eqn:Hmap; [|left; reflexivity].
  apply find_job_Some in Hfind as [Hjob Hu].
  right. exists job, mapping.
  split; [exact Hjob|]. split; [exact Hu|]. split; [exact Hmap|].
  cbv zeta.
  set (jobP := with_status job JobStatus.processing).
  set (st1 := set_import_jobs st (<[jobId := jobP]> (import_jobs st))).
  assert (Hjob1 : import_jobs st1 !! jobId = Some jobP)
    by (unfold st1; cbn [import_jobs set_import_jobs];
        apply lookup_insert_eq).
  destruct (preview_data job) as [|row rest] eqn:Hrows.
  - left. split; [reflexivity|]. f_equal.
    apply processImportJob_no_rows; [exact Hjob1 | exact Hrows].
  - right. exists row, rest. split; [reflexivity|]. f_equal.
    apply (processImportJob_rows Date_parse now st1 jobId jobP mapping
             row rest Hjob1); [exact Hmap | exact Hrows].
Qed.

(** No request writes an outcome. *)
Lemma handle_import_rows st r :
  import_rows (handle Date_parse now st r) = import_rows st.
Proof.
  destruct r as [m | u n d | u j m | u j]; cbn [handle].
  - apply apply_mutation_imports.
  - unfold uploadCSV. destruct d; reflexivity.
  - unfold configureMapping. destruct (find_job st j u); reflexivity.
  - destruct (processImport_cases st u j)
      as [-> | (job & mapping & _ & _ & _ & [[_ ->] | (row & rest & _ & ->)])];
      [reflexivity | reflexivity |].
    cbn [snd].
    destruct (process_row_frame Date_parse
                (with_status job JobStatus.processing) j mapping
                (set_import_jobs st
                   (<[j := with_status job JobStatus.processing]>
                      (import_jobs st))) 0 row)
      as (_ & _ & _ & Hr & _).
    cbv zeta in Hr. cbn [fail_job import_rows set_import_jobs] in *.
    exact Hr.
Qed.

(** What a request does to the record of a job: it leaves it alone, or
    it is the upload that creates it, or it changes status, mapping and
    error log only and leaves it not [completed], or the job has no
    stored row. *)
Lemma handle_job st r jobId job' :
  import_jobs (handle Date_parse now st r) !! jobId = Some job' ->
  import_jobs st !! jobId = Some job'
  \/ (import_jobs st !! jobId = None
      /\ status job' = JobStatus.pending
      /\ preview_data job' <> []
      /\ length (preview_data job') = Nat.min 5 (total_rows job')
      /\ processed_rows job' = 0%nat /\ successful_rows job' = 0%nat
      /\ failed_rows job' = 0%nat /\ completed_at job' = None)
  \/ (exists job,
        import_jobs st !! jobId = Some job
        /\ status job' <> JobStatus.completed
        /\ preview_data job' = preview_data job
        /\ total_rows job' = total_rows job
        /\ processed_rows job' = processed_rows job
        /\ successful_rows job' = successful_rows job
        /\ failed_rows job' = failed_rows job
        /\ completed_at job' = completed_at job)
  \/ (exists job,
        import_jobs st !! jobId = Some job
        /\ preview_data job = []
        /\ preview_data job' = []
        /\ total_rows job' = total_rows job).
Proof.
  destruct r as [m | u n d | u j m | u j]; cbn [handle].
  - destruct (apply_mutation_imports st m) as [-> _]. auto.
  - unfold uploadCSV. destruct d as [|row rest]; [auto|].
    cbn [snd import_jobs set_import_jobs].
    destruct (decide (jobId = new_job_id st)) as [->|Hne].
    + rewrite lookup_insert_eq. intros [= <-]. right. left.
      cbn [status preview_data total_rows processed_rows successful_rows
           failed_rows completed_at].
      split.
      { unfold new_job_id. apply (not_elem_of_dom (D := gset string)).
        apply is_fresh. }
      split; [reflexivity|]. split; [discriminate|].
      split; [exact (length_take (row :: rest) 5%nat)|]. auto.
    + rewrite lookup_insert_ne by congruence. auto.
  - unfold configureMapping.
    destruct (find_job st j u) as [job|] eqn:Hfind; [|auto].
    apply find_job_Some in Hfind as [Hjob _].
    cbn [snd import_jobs set_import_jobs].
    destruct (decide (jobId = j)) as [->|Hne].
    + rewrite lookup_insert_eq. intros [= <-]. right. right. left.
      exists job. split; [exact Hjob|]. split; [discriminate|].
      cbn. auto 10.
    + rewrite lookup_insert_ne by congruence. auto.
  - destruct (processImport_cases st u j)
      as [-> | (job & mapping & Hjob & _ & Hmap
                & [[Hrows ->] | (row & rest & Hrows & ->)])];
      [auto | |]; cbn [snd].
    + destruct (decide (jobId = j)) as [->|Hne].
      * unfold complete_job. cbn [import_jobs set_import_jobs add_notification].
        rewrite lookup_alter_eq, lookup_insert_eq. intros [= <-].
        right. right. right. exists job. cbn. auto.
      * rewrite complete_job_other by exact Hne.
        cbn [import_jobs set_import_jobs].
        rewrite lookup_insert_ne by congruence. auto.
    + set (jobP := with_status job JobStatus.processing).
      set (st1 := set_import_jobs st (<[j := jobP]> (import_jobs st))).
      destruct (process_row_frame Date_parse jobP j mapping st1 0 row)
        as (_ & _ & Hj & _ & _).
      cbv zeta in Hj.
      set (st2 := fst (process_row Date_parse jobP j mapping st1 0 row)) in *.
      destruct (decide (jobId = j)) as [->|Hne].
      * assert (Hjob2 : import_jobs st2 !! j = Some jobP)
          by (rewrite Hj; unfold st1; cbn [import_jobs set_import_jobs];
              apply lookup_insert_eq).
        destruct (fail_job_lookup st2 j "idempotency_key is not defined"
                    jobP Hjob2)
          as (jobF & H1 & H2 & _ & _ & _ & H6 & H7 & _ & H9 & H10 & H11
              & H12).
        rewrite H1. intros [= <-]. right. right. left.
        exists job. split; [exact Hjob|].
        split; [rewrite H2; discriminate|].
        rewrite H6, H7, H9, H10, H11, H12. cbn. auto 10.
      * rewrite fail_job_other by exact Hne. rewrite Hj. unfold st1.
        cbn [import_jobs set_import_jobs].
        rewrite lookup_insert_ne by congruence. auto.
Qed.

(** A notification is created only when a job with no stored row is
    processed. *)
Lemma handle_notifications st r :
  (forall jobId job, import_jobs st !! jobId = Some job ->
                     preview_data job <> []) ->
  notifications (handle Date_parse now st r) = notifications st.
Proof.
  intros Hrows.
  destruct r as [m | u n d | u j m | u j]; cbn [handle].
  - apply apply_mutation_imports.
  - unfold uploadCSV. destruct d; reflexivity.
  - unfold configureMapping. destruct (find_job st j u); reflexivity.
  - destruct (processImport_cases st u j)
      as [-> | (job & mapping & Hjob & _ & _
                & [[Hnil _] | (row & rest & _ & ->)])];
      [reflexivity | exfalso; exact (Hrows j job Hjob Hnil) |].
    cbn [snd].
    destruct (process_row_frame Date_parse
                (with_status job JobStatus.processing) j mapping
                (set_import_jobs st
                   (<[j := with_status job JobStatus.processing]>
                      (import_jobs st))) 0 row)
      as (_ & _ & _ & _ & Hn).
    cbv zeta in Hn. cbn [fail_job notifications set_import_jobs] in *.
    exact Hn.
Qed.

(** ** Coverage of completed jobs *)


(** X9.  The background processor never touches an account and never
    alters or removes a transaction already stored; what it adds carries
    no account reference, so a ledger whose balances equal their signed
    sums still does after any import run. *)
Theorem import_preserves_ledger (st : Store) (jobId : string) :
  let st' := processImportJob Date_parse now st jobId in
  accounts st' = accounts st
  /\ (forall id t, transactions st !! id = Some t ->
                   transactions st' !! id = Some t)
  /\ (forall id t, transactions st' !! id = Some t ->
                   transactions st !! id = Some t \/ tx_account_id t = None)
  /\ (balance_invariant st -> balance_invariant st').
Proof.
  intros st'. unfold st'.
  destruct (processImportJob_cases Date_parse now st jobId)
    as [-> | [(job & _ & _ & ->)
             | (job & st1 & msg & _ & _ & Hst1 & ->)]];
    [auto | cbn; auto |].
  cbn [fail_job accounts transactions set_import_jobs].
  destruct Hst1 as [-> | (mapping & row & ->)]; [auto|].
  destruct (process_row_frame Date_parse job jobId mapping st 0 row)
    as (_ & Ha & _).
  destruct (process_row_transactions Date_parse job jobId mapping st 0 row)
    as [Ht | (t & Ht & _ & Hacct)]; cbv zeta in Ha, Ht.
  - rewrite Ht. split; [exact Ha|]. split; [auto|]. split; [auto|].
    apply balance_invariant_transfer; [exact Ha|].
    intros a. cbn [fail_job transactions set_import_jobs]. rewrite Ht.
    reflexivity.
  - pose proof (new_transaction_id_fresh st) as Hfresh.
    rewrite Ht. split; [exact Ha|]. split; [|split].
    + intros id t0 Hid. rewrite lookup_insert_ne; [exact Hid|].
      intros <-. rewrite Hfresh in Hid. discriminate.
    + intros id t0 Hid.
      destruct (decide (id = new_transaction_id st)) as [->|Hne].
      * rewrite lookup_insert_eq in Hid. injection Hid as <-. auto.
      * rewrite lookup_insert_ne in Hid by congruence. auto.
    + apply balance_invariant_transfer; [exact Ha|].
      intros a. cbn [fail_job transactions set_import_jobs]. rewrite Ht.
      rewrite ledger_sum_insert_fresh by exact Hfresh.
      rewrite contribution_other by (rewrite Hacct; discriminate). ring.
Qed.

(** X10.  A run over a job with a mapping and a stored row writes at
    most one transaction, the one of the first stored row, and that
    exactly when the row's key is not recorded and its amount,
    description and date are valid; it records no outcome and touches no
    account.  The rows after the first are not read. *)
Theorem run_stores_first_row_only
    (st : Store) (jobId : string) (importJob : import_job)
    (mapping : ColumnMapping) (row : gmap string string)
    (rest : list (gmap string string)) :
  import_jobs st !! jobId = Some importJob ->
  mapping_data importJob = Some mapping ->
  preview_data importJob = row :: rest ->
  let st' := processImportJob Date_parse now st jobId in
  transactions st'
  = match existingRow st (generateIdempotencyKey row mapping),
          parse_amount row mapping,
          JS.if_truthy (row !! m_description mapping),
          row !! m_date mapping ≫= Date_parse with
    | None, Some amount, Some description, Some txDate =>
        <[new_transaction_id st :=
            transaction_data importJob mapping row amount description txDate]>
          (transactions st)
    | _, _, _, _ => transactions st
    end
  /\ (size (transactions st') <= S (size (transactions st)))%nat
  /\ import_rows st' = import_rows st
  /\ accounts st' = accounts st.
Proof.
  intros Hjob Hmap Hrows st'. unfold st'.
  rewrite (processImportJob_rows Date_parse now st jobId importJob mapping
             row rest Hjob Hmap Hrows).
  cbn [fail_job transactions import_rows accounts set_import_jobs].
  rewrite process_row_eq. cbn [fst].
  pose proof (new_transaction_id_fresh st) as Hfresh.
  destruct (existingRow st _); [cbn; auto with lia|].
  destruct (parse_amount row mapping); [|cbn; auto with lia].
  destruct (JS.if_truthy _); [|cbn; auto with lia].
  destruct (_ ≫= _); [|cbn; auto with lia].
  cbn [transactions import_rows accounts set_transactions].
  split; [reflexivity|].
  split; [rewrite map_size_insert_None by exact Hfresh; lia|].
  split; reflexivity.
Qed.

(** X13.  Processing is not idempotent: when the first stored row of a
    job is new and valid, a run stores its transaction, and a second run
    over the same job stores it once more, since the first run has
    recorded no key. *)
Theorem second_run_stores_row_again
    (st : Store) (jobId : string) (importJob : import_job)
    (mapping : ColumnMapping) (row : gmap string string)
    (rest : list (gmap string string)) :
  import_jobs st !! jobId = Some importJob ->
  mapping_data importJob = Some mapping ->
  preview_data importJob = row :: rest ->
  existingRow st (generateIdempotencyKey row mapping) = None ->
  is_Some (parse_amount row mapping) ->
  is_Some (JS.if_truthy (row !! m_description mapping)) ->
  is_Some (row !! m_date mapping ≫= Date_parse) ->
  let st1 := processImportJob Date_parse now st jobId in
  let st2 := processImportJob Date_parse now st1 jobId in
  size (transactions st1) = S (size (transactions st))
  /\ size (transactions st2) = S (S (size (transactions st)))
  /\ import_rows st2 = import_rows st.
Proof.
  intros Hjob Hmap Hrows Hnew [amount Ha] [description Hd] [txDate Ht]
    st1 st2.
  assert (Hrun : forall s job,
            import_jobs s !! jobId = Some job ->
            mapping_data job = Some mapping ->
            preview_data job = row :: rest ->
            import_rows s = import_rows st ->
            let s' := processImportJob Date_parse now s jobId in
            size (transactions s') = S (size (transactions s))
            /\ import_rows s' = import_rows st
            /\ exists job', import_jobs s' !! jobId = Some job'
                            /\ mapping_data job' = Some mapping
                            /\ preview_data job' = row :: rest).
  { intros s job Hj Hm Hp Hr s'. unfold s'.
    rewrite (processImportJob_rows Date_parse now s jobId job mapping
               row rest Hj Hm Hp).
    assert (He : existingRow s (generateIdempotencyKey row mapping) = None)
      by (unfold existingRow in *; rewrite Hr; exact Hnew).
    rewrite process_row_eq, He, Ha, Hd, Ht. cbn [fst].
    split.
    { cbn [fail_job transactions set_import_jobs set_transactions].
      apply map_size_insert_None, new_transaction_id_fresh. }
    split; [exact Hr|].
    destruct (fail_job_lookup
                (set_transactions s
                   (<[new_transaction_id s :=
                        transaction_data job mapping row amount description
                          txDate]> (transactions s)))
                jobId "idempotency_key is not defined" job Hj)
      as (job' & H1 & _ & _ & _ & _ & _ & H7 & H8 & _).
    exists job'. split; [exact H1|]. split; congruence. }
  destruct (Hrun st importJob Hjob Hmap Hrows eq_refl)
    as (Hs1 & Hr1 & job1 & Hj1 & Hm1 & Hp1).
  fold st1 in Hs1, Hr1, Hj1.
  destruct (Hrun st1 job1 Hj1 Hm1 Hp1 Hr1) as (Hs2 & Hr2 & _).
  fold st2 in Hs2, Hr2.
  split; [exact Hs1|]. split; [rewrite Hs2, Hs1; reflexivity | exact Hr2].
Qed.

(** X12.  From the empty store on, whatever requests are served, no
    outcome and no notification is ever recorded, and no job is ever
    [completed]: every job stores at least one row, and its counters and
    completion time stay as the upload wrote them. *)
Theorem no_uploaded_job_is_ever_completed (fk : bool) (rs : list request) :
  let st := handle_all Date_parse now (Scenario.empty_store fk) rs in
  import_rows st = []
  /\ notifications st = []
  /\ forall jobId job, import_jobs st !! jobId = Some job ->
                       never_completed job.
Proof.
  cbv zeta.
  assert (Hgen : forall st0,
            import_rows st0 = [] -> notifications st0 = [] ->
            (forall jobId job, import_jobs st0 !! jobId = Some job ->
                               never_completed job) ->
            import_rows (handle_all Date_parse now st0 rs) = []
            /\ notifications (handle_all Date_parse now st0 rs) = []
            /\ forall jobId job,
                 import_jobs (handle_all Date_parse now st0 rs) !! jobId
                 = Some job -> never_completed job).
  { induction rs as [|r rs IH]; intros st0 Hr Hn Hjobs; [auto|].
    cbn [handle_all foldl]. apply IH.
    - rewrite handle_import_rows. exact Hr.
    - rewrite handle_notifications; [exact Hn|].
      intros jobId job Hjob. exact (proj1 (proj2 (Hjobs jobId job Hjob))).
    - intros jobId job' Hjob'.
      destruct (handle_job st0 r jobId job' Hjob')
        as [H | [(_ & Hst & Hp & _ & H1 & H2 & H3 & H4)
                | [(job & Hjob & Hst & Hp & _ & H1 & H2 & H3 & H4)
                  | (job & Hjob & Hnil & _)]]].
      + exact (Hjobs jobId job' H).
      + unfold never_completed. rewrite Hst.
        repeat split; auto; discriminate.
      + destruct (Hjobs jobId job Hjob) as (_ & G2 & G3 & G4 & G5 & G6).
        unfold never_completed. rewrite Hp, H1, H2, H3, H4. auto 10.
      + destruct (Hjobs jobId job Hjob) as (_ & G2 & _). contradiction. }
  apply Hgen; [reflexivity | reflexivity |].
  intros jobId job H. cbn in H. rewrite lookup_empty in H. discriminate.
Qed.

End ImportTransactions.


(** The run of six rows, evaluated: the job declares six rows and ends
    [failed] with none processed and no outcome. *)
Example run_over_six_rows :
  let st := ImportScenario.import (Scenario.empty_store true) "alice"
              "six.csv" ImportScenario.six_rows in
  length ImportScenario.six_rows = 6%nat
  /\ ((fun j => (status j, total_rows j, length (preview_data j),
                 processed_rows j))
        <$> import_jobs st !! "0")
     = Some (JobStatus.failed, 6, 5, 0)%nat
  /\ import_rows st = [].
Proof. intros st. repeat split; vm_compute; reflexivity. Qed.

Lemma run_stores_first_row_only_witness :
  (size (transactions (processImportJob IsoDate.parse 0
                         ImportScenario.bank_processing "0")) <= 1)%nat
  /\ import_rows (processImportJob IsoDate.parse 0
                    ImportScenario.bank_processing "0") = [].
Proof.
  assert (Hjob : import_jobs ImportScenario.bank_processing !! "0"
                 = Some ImportScenario.bank_job)
    by (vm_compute; reflexivity).
  destruct (run_stores_first_row_only IsoDate.parse 0
              ImportScenario.bank_processing "0" ImportScenario.bank_job
              ImportScenario.csv_mapping ImportScenario.groceries
              [ImportScenario.lone_minus; ImportScenario.groceries]
              Hjob eq_refl eq_refl) as (_ & H2 & H3 & _).
  exact (conj H2 H3).
Defined.

Lemma second_run_stores_row_again_witness :
  size (transactions
          (processImportJob IsoDate.parse 0
             (processImportJob IsoDate.parse 0
                ImportScenario.bank_processing "0") "0"))
  = 2%nat.
Proof.
  assert (Hjob : import_jobs ImportScenario.bank_processing !! "0"
                 = Some ImportScenario.bank_job)
    by (vm_compute; reflexivity).
  assert (Hnew : existingRow ImportScenario.bank_processing
                   (generateIdempotencyKey ImportScenario.groceries
                      ImportScenario.csv_mapping) = None)
    by (vm_compute; reflexivity).
  assert (Ha : is_Some (parse_amount ImportScenario.groceries
                          ImportScenario.csv_mapping))
    by (vm_compute; eauto).
  assert (Hd : is_Some (JS.if_truthy
                          (ImportScenario.groceries
                           !! m_description ImportScenario.csv_mapping)))
    by (vm_compute; eauto).
  assert (Ht : is_Some (ImportScenario.groceries
                        !! m_date ImportScenario.csv_mapping
                        ≫= IsoDate.parse))
    by (vm_compute; eauto).
  exact (proj1 (proj2 (second_run_stores_row_again IsoDate.parse 0
                         ImportScenario.bank_processing "0"
                         ImportScenario.bank_job ImportScenario.csv_mapping
                         ImportScenario.groceries
                         [ImportScenario.lone_minus; ImportScenario.groceries]
                         Hjob eq_refl eq_refl Hnew Ha Hd Ht))).
Defined.


(** * Keys and amounts *)

(** X15.  The idempotency key reads the four mapped columns only:
    changing any other cell of a row (its type, category, account, or a
    column that is not mapped) does not change its key. *)
Theorem key_ignores_other_columns
    (row : gmap string string) (mapping : ColumnMapping) (c v : string) :
  c <> m_date mapping -> c <> m_amount mapping ->
  c <> m_description mapping ->
  c <> JS.prop_name (m_reference mapping) ->
  generateIdempotencyKey (<[c := v]> row) mapping
  = generateIdempotencyKey row mapping.
Proof.
  intros Hd Ha He Hr. rewrite !generateIdempotencyKey_join.
  unfold raw_fields. rewrite !lookup_insert_ne by congruence. reflexivity.
Qed.

Lemma key_ignores_other_columns_witness :
  generateIdempotencyKey
    (<["Type" := "income"]> ImportScenario.groceries)
    ImportScenario.csv_mapping
  = generateIdempotencyKey ImportScenario.groceries ImportScenario.csv_mapping.
Proof.
  apply (key_ignores_other_columns ImportScenario.groceries
           ImportScenario.csv_mapping "Type" "income"); discriminate.
Defined.

Lemma string_of_list_ascii_length l :
  String.length (string_of_list_ascii l) = length l.
Proof. induction l as [|c l IH]; simpl; congruence. Qed.

Lemma le_bytes_length n x : length (MD5.le_bytes n x) = n.
Proof. unfold MD5.le_bytes. rewrite length_fmap. apply length_seq. Qed.

Lemma hex_of_bytes_length bs :
  String.length (MD5.hex_of_bytes bs) = (2 * length bs)%nat.
Proof.
  unfold MD5.hex_of_bytes. rewrite string_of_list_ascii_length.
  induction bs as [|b bs IH]; [reflexivity|].
  change ((b :: bs) ≫= _) with
    ([MD5.hex_digit (b / 16); MD5.hex_digit (b mod 16)]
       ++ (bs ≫= fun b => [MD5.hex_digit (b / 16); MD5.hex_digit (b mod 16)])).
  rewrite length_app, IH. simpl. lia.
Qed.

(** X16.  Every idempotency key is 32 characters long, whatever the row
    holds. *)
Theorem idempotency_key_has_32_characters
    (row : gmap string string) (mapping : ColumnMapping) :
  String.length (generateIdempotencyKey row mapping) = 32%nat.
Proof.
  unfold generateIdempotencyKey, MD5.hexdigest. cbv zeta.
  rewrite hex_of_bytes_length, !length_app, !le_bytes_length. reflexivity.
Qed.

Lemma Q2Qc_opp q : Q2Qc (- q) = (- Q2Qc q)%Qc.
Proof.
  apply Qc_is_canon. simpl. rewrite !Qred_correct. reflexivity.
Qed.

Lemma not_minus_head c rest (A : Type) (x y : A) :
  c <> "-"%char ->
  match String c rest with
  | String "-" _ => x
  | _ => y
  end = y.
Proof.
  intros Hc.
  destruct c as [[|] [|] [|] [|] [|] [|] [|] [|]];
    try reflexivity; contradiction.
Qed.

(** X17.  Signs in amounts: one leading ['-'] negates the value the rest
    parses to; a second ['-'] right after it makes the amount [NaN]. *)
Theorem parseFloat_leading_minus (s : string) :
  match s with
  | String "-" _ => JS.parseFloat (String "-" s) = None
  | _ => JS.parseFloat (String "-" s) = Qcopp <$> JS.parseFloat s
  end.
Proof.
  destruct s as [|c rest].
  { reflexivity. }
  destruct (Ascii.eqb_spec c "-") as [->|Hc].
  { reflexivity. }
  rewrite (not_minus_head c rest Prop _ _ Hc).
  unfold JS.parseFloat at 2.
  rewrite (not_minus_head c rest (bool * string) _ _ Hc).
  unfold JS.parseFloat.
  destruct (JS.span_digits (String c rest)) as [ip rest1].
  set (fp := match rest1 with
             | String "." rest2 => (JS.span_digits rest2).1
             | _ => []
             end).
  destruct ip as [|d ip]; destruct fp as [|e fp];
    try reflexivity; cbn [fmap option_fmap option_map]; f_equal;
    exact (Q2Qc_opp (_ # _)).
Qed.

(** * Upload, preview and status *)

Lemma new_job_id_fresh st : import_jobs st !! new_job_id st = None.
Proof.
  unfold new_job_id. apply (not_elem_of_dom (D := gset string)).
  apply is_fresh.
Qed.

(** X18.  Uploading an empty file is refused with 400 and stores
    nothing.  Any other upload creates one new job and overwrites none:
    the job is [pending], belongs to the uploader, declares all rows,
    keeps the first five at most as preview and has no mapping, so
    previewing or processing it before a mapping is configured answers
    404. *)
Theorem upload_creates_pending_job
    (st : Store) (userId name : string) (csvData : list (gmap string string)) :
  let r := uploadCSV st userId name csvData in
  let jid := new_job_id st in
  match csvData with
  | [] => r = (Error 400 "CSV file is empty", st)
  | _ =>
      fst r = Success 200 (Some jid)
      /\ import_jobs st !! jid = None
      /\ (exists job,
            import_jobs (snd r) !! jid = Some job
            /\ job_user_id job = userId
            /\ status job = JobStatus.pending
            /\ mapping_data job = None
            /\ total_rows job = length csvData
            /\ preview_data job = take 5 csvData
            /\ length (preview_data job) = Nat.min 5 (length csvData))
      /\ (forall j, j <> jid -> import_jobs (snd r) !! j = import_jobs st !! j)
      /\ import_rows (snd r) = import_rows st
      /\ transactions (snd r) = transactions st
      /\ accounts (snd r) = accounts st
      /\ processImport_start (snd r) userId jid
         = (Error 404 "Import job or mapping not found", snd r)
      /\ previewMapping (snd r) userId jid
         = (Error 404 "Import job or mapping not found", None)
  end.
Proof.
  intros r jid. destruct csvData as [|row rest]; [reflexivity|].
  unfold r, uploadCSV. fold jid. cbn [fst snd].
  split; [reflexivity|]. split; [apply new_job_id_fresh|].
  split.
  { eexists. cbn [import_jobs set_import_jobs].
    split; [apply lookup_insert_eq|].
    cbn [job_user_id status mapping_data total_rows preview_data].
    repeat split. apply length_take. }
  split.
  { intros j Hj. cbn [import_jobs set_import_jobs].
    rewrite lookup_insert_ne by congruence. reflexivity. }
  split; [reflexivity|]. split; [reflexivity|]. split; [reflexivity|].
  unfold processImport_start, previewMapping, find_job.
  cbn [import_jobs set_import_jobs]. rewrite lookup_insert_eq.
  cbn [job_user_id mapping_data]. rewrite String.eqb_refl.
  split; reflexivity.
Qed.

Section Lifecycle.

Variable Date_parse : string -> option Z.
Variable now : Z.

(** X19.  Upload, configure, process, by the same user: the request to
    process is accepted, and the background run ends with the job
    [failed].  The job declares every uploaded row and has processed
    none; no outcome and no notification is recorded, no account is
    touched, and at most one transaction is stored. *)
Theorem upload_configure_process_fails
    (st : Store) (userId name : string) (csvData : list (gmap string string))
    (mapping : ColumnMapping) :
  csvData <> [] ->
  let jid := new_job_id st in
  let st1 := snd (uploadCSV st userId name csvData) in
  let st2 := snd (configureMapping st1 userId jid mapping) in
  let r := processImport Date_parse now st2 userId jid in
  fst r = Success 200 (Some jid)
  /\ (exists job,
        import_jobs (snd r) !! jid = Some job
        /\ status job = JobStatus.failed
        /\ error_log job = Some "idempotency_key is not defined"
        /\ total_rows job = length csvData
        /\ processed_rows job = 0%nat
        /\ successful_rows job = 0%nat
        /\ failed_rows job = 0%nat
        /\ completed_at job = None)
  /\ import_rows (snd r) = import_rows st
  /\ notifications (snd r) = notifications st
  /\ accounts (snd r) = accounts st
  /\ (size (transactions (snd r)) <= S (size (transactions st)))%nat.
Proof.
  intros Hne jid st1 st2 r.
  destruct csvData as [|row rest]; [contradiction|].
  set (csvData := row :: rest) in *.
  set (job0 := {| job_user_id := userId; filename := name;
                  total_rows := length csvData;
                  status := JobStatus.pending;
                  preview_data := take 5 csvData; mapping_data := None;
                  processed_rows := 0; successful_rows := 0;
                  failed_rows := 0; error_log := None;
                  completed_at := None |}).
  assert (H1 : st1 = set_import_jobs st (<[jid := job0]> (import_jobs st)))
    by reflexivity.
  assert (H2 : st2 = set_import_jobs st1
                       (<[jid := with_mapping job0 mapping]> (import_jobs st1))).
  { unfold st2, configureMapping, find_job. rewrite H1.
    cbn [import_jobs set_import_jobs]. rewrite lookup_insert_eq.
    cbn [job_user_id job0]. rewrite String.eqb_refl. reflexivity. }
  clearbody st2. subst st2.
  set (st2 := set_import_jobs st1 _) in *.
  set (jobP := with_status (with_mapping job0 mapping) JobStatus.processing).
  set (st3 := set_import_jobs st2 (<[jid := jobP]> (import_jobs st2))).
  assert (H3 : r = (Success 200 (Some jid),
                    processImportJob Date_parse now st3 jid)).
  { unfold r, processImport, processImport_start, find_job.
    cbn [import_jobs set_import_jobs st2]. rewrite lookup_insert_eq.
    cbn [job_user_id with_mapping mapping_data job0].
    rewrite String.eqb_refl. reflexivity. }
  rewrite H3. cbn [fst snd]. split; [reflexivity|].
  assert (Hjob : import_jobs st3 !! jid = Some jobP)
    by (unfold st3; cbn [import_jobs set_import_jobs];
        apply lookup_insert_eq).
  rewrite (processImportJob_rows Date_parse now st3 jid jobP mapping
             row (take 4 rest) Hjob eq_refl eq_refl).
  destruct (process_row_frame Date_parse jobP jid mapping st3 0 row)
    as (_ & Ha & Hj & Hr & Hn).
  pose proof (process_row_transactions Date_parse jobP jid mapping st3 0 row)
    as Ht.
  cbv zeta in Ha, Hj, Hr, Hn, Ht.
  set (st4 := fst (process_row Date_parse jobP jid mapping st3 0 row)) in *.
  assert (Hjob4 : import_jobs st4 !! jid = Some jobP)
    by (rewrite Hj; exact Hjob).
  destruct (fail_job_lookup st4 jid "idempotency_key is not defined"
              jobP Hjob4)
    as (job' & G1 & G2 & G3 & _ & _ & G6 & _ & _ & G9 & G10 & G11 & G12).
  split.
  { exists job'. split; [exact G1|]. split; [exact G2|]. split; [exact G3|].
    split; [exact G6|]. split; [exact G9|]. split; [exact G10|].
    split; [exact G11 | exact G12]. }
  cbn [fail_job import_rows notifications accounts transactions
       set_import_jobs].
  split; [exact Hr|]. split; [exact Hn|]. split; [exact Ha|].
  destruct Ht as [-> | (t & -> & _)]; [cbn; lia|].
  rewrite map_size_insert_None by apply new_transaction_id_fresh.
  cbn. lia.
Qed.

Lemma filter_partition_length {A} (P : A -> Prop)
    `{forall x, Decision (P x)} (l : list A) :
  (length (filter P l) + length (filter (fun x => ~ P x) l))%nat = length l.
Proof.
  induction l as [|x l IH]; [reflexivity|].
  rewrite !filter_cons. destruct (decide (P x)) as [HP|HP].
  - rewrite decide_False by tauto. simpl. lia.
  - rewrite decide_True by tauto. simpl. lia.
Qed.

(** X20.  The preview answers 404 exactly when the job is missing, not
    the caller's, or has no mapping; otherwise it returns one entry per
    stored preview row and a summary in which valid and invalid add up to
    the total. *)
Theorem preview_summary_adds_up (st : Store) (userId jobId : string) :
  match previewMapping st userId jobId with
  | (resp, Some (rows, s)) =>
      resp = Success 200 (Some jobId)
      /\ sum_total s = length rows
      /\ (sum_valid s + sum_invalid s)%nat = sum_total s
      /\ exists job mapping,
           find_job st jobId userId = Some job
           /\ mapping_data job = Some mapping
           /\ length rows = length (preview_data job)
  | (resp, None) =>
      resp = Error 404 "Import job or mapping not found"
      /\ (find_job st jobId userId = None
          \/ exists job, find_job st jobId userId = Some job
                         /\ mapping_data job = None)
  end.
Proof.
  unfold previewMapping.
  destruct (find_job st jobId userId) as [job|]; [|auto].
  destruct (mapping_data job) as [mapping|] eqn:Hmap; [|eauto].
  cbn [sum_total sum_valid sum_invalid].
  split; [reflexivity|]. split; [reflexivity|].
  split; [apply filter_partition_length|].
  exists job, mapping. rewrite length_imap. auto.
Qed.


(** X22.  After a run over a job with a mapping and a stored row, the
    status of the job reports it [failed]; the counters, the completion
    time and the list of row errors are those reported before the run.
    The message of the error is in [error_log], which the status does
    not return. *)
Theorem status_after_run_reports_failed
    (st : Store) (userId jobId : string) (importJob : import_job)
    (mapping : ColumnMapping) (row : gmap string string)
    (rest : list (gmap string string)) :
  import_jobs st !! jobId = Some importJob ->
  job_user_id importJob = userId ->
  mapping_data importJob = Some mapping ->
  preview_data importJob = row :: rest ->
  let st' := processImportJob Date_parse now st jobId in
  exists s0 s,
    getImportStatus st userId jobId = (Success 200 (Some jobId), Some s0)
    /\ getImportStatus st' userId jobId = (Success 200 (Some jobId), Some s)
    /\ s_status s = JobStatus.failed
    /\ s_errors s = s_errors s0
    /\ s_totalRows s = s_totalRows s0
    /\ s_processedRows s = s_processedRows s0
    /\ s_successfulRows s = s_successfulRows s0
    /\ s_failedRows s = s_failedRows s0
    /\ s_completedAt s = s_completedAt s0.
Proof.
  intros Hjob Hu Hmap Hrows st'. unfold st'.
  rewrite (processImportJob_rows Date_parse now st jobId importJob mapping
             row rest Hjob Hmap Hrows).
  destruct (process_row_frame Date_parse importJob jobId mapping st 0 row)
    as (_ & _ & Hj & Hr & _).
  cbv zeta in Hj, Hr.
  set (st1 := fst (process_row Date_parse importJob jobId mapping st 0 row))
    in *.
  assert (Hjob1 : import_jobs st1 !! jobId = Some importJob)
    by (rewrite Hj; exact Hjob).
  destruct (fail_job_lookup st1 jobId "idempotency_key is not defined"
              importJob Hjob1)
    as (job' & G1 & G2 & _ & G4 & _ & G6 & _ & _ & G9 & G10 & G11 & G12).
  unfold getImportStatus, find_job.
  rewrite G1, G4, Hjob, Hu, String.eqb_refl.
  eexists. eexists. split; [reflexivity|]. split; [reflexivity|].
  cbn [s_status s_errors s_totalRows s_processedRows s_successfulRows
       s_failedRows s_completedAt fail_job import_rows set_import_jobs].
  rewrite Hr. auto 10.
Qed.

(** X23.  A request to process is refused with 404, leaving the store as
    it was, exactly when the job is missing, not the caller's, or has no
    mapping.  Otherwise it is accepted, and the background run leaves the
    job [failed] when it stores a row and [completed] when it stores
    none: a job accepted for processing is never left [processing]. *)
Theorem process_request_outcome (st : Store) (userId jobId : string) :
  match processImport Date_parse now st userId jobId with
  | (Success _ _, st') =>
      exists job,
        find_job st jobId userId = Some job
        /\ is_Some (mapping_data job)
        /\ (status <$> import_jobs st' !! jobId)
           = Some (match preview_data job with
                   | [] => JobStatus.completed
                   | _ :: _ => JobStatus.failed
                   end)
  | (Error code _, st') =>
      code = 404%nat /\ st' = st
      /\ (find_job st jobId userId = None
          \/ exists job, find_job st jobId userId = Some job
                         /\ mapping_data job = None)
  end.
Proof.
  unfold processImport, processImport_start.
  destruct (find_job st jobId userId) as [job|] eqn:Hfind; [|auto].
  destruct (mapping_data job) as [mapping|] eqn:Hmap; [|eauto 6].
  exists job. split; [reflexivity|]. split; [rewrite Hmap; eauto|].
  set (jobP := with_status job JobStatus.processing).
  set (st1 := set_import_jobs st _).
  assert (Hjob : import_jobs st1 !! jobId = Some jobP)
    by (unfold st1; cbn [import_jobs set_import_jobs];
        apply lookup_insert_eq).
  destruct (preview_data job) as [|row rest] eqn:Hrows.
  - rewrite (processImportJob_no_rows Date_parse now st1 jobId jobP Hjob Hrows).
    unfold complete_job. cbn [import_jobs set_import_jobs add_notification].
    rewrite lookup_alter_eq, Hjob. reflexivity.
  - rewrite (processImportJob_rows Date_parse now st1 jobId jobP mapping
               row rest Hjob Hmap Hrows).
    destruct (process_row_frame Date_parse jobP jobId mapping st1 0 row)
      as (_ & _ & Hj & _).
    cbv zeta in Hj.
    set (st2 := fst (process_row Date_parse jobP jobId mapping st1 0 row))
      in *.
    assert (Hjob2 : import_jobs st2 !! jobId = Some jobP)
      by (rewrite Hj; exact Hjob).
    destruct (fail_job_lookup st2 jobId "idempotency_key is not defined"
                jobP Hjob2) as (job' & G1 & G2 & _).
    rewrite G1. cbn. rewrite G2. reflexivity.
Qed.

End Lifecycle.

Lemma upload_configure_process_fails_witness :
  let st2 := snd (configureMapping
                    (snd (uploadCSV (Scenario.empty_store true) "alice"
                            "six.csv" ImportScenario.six_rows))
                    "alice" "0" ImportScenario.csv_mapping) in
  fst (processImport IsoDate.parse 0 st2 "alice" "0")
  = Success 200 (Some "0")
  /\ import_rows (snd (processImport IsoDate.parse 0 st2 "alice" "0")) = [].
Proof.
  destruct (upload_configure_process_fails IsoDate.parse 0
              (Scenario.empty_store true) "alice" "six.csv"
              ImportScenario.six_rows ImportScenario.csv_mapping
              ltac:(discriminate)) as (H1 & _ & H3 & _).
  exact (conj H1 H3).
Defined.

Lemma status_after_run_reports_failed_witness :
  exists s,
    getImportStatus
      (processImportJob IsoDate.parse 0 ImportScenario.bank_processing "0")
      "alice" "0"
    = (Success 200 (Some "0"), Some s)
    /\ s_status s = JobStatus.failed.
Proof.
  assert (Hjob : import_jobs ImportScenario.bank_processing !! "0"
                 = Some ImportScenario.bank_job)
    by (vm_compute; reflexivity).
  destruct (status_after_run_reports_failed IsoDate.parse 0
              ImportScenario.bank_processing "alice" "0"
              ImportScenario.bank_job ImportScenario.csv_mapping
              ImportScenario.groceries
              [ImportScenario.lone_minus; ImportScenario.groceries]
              Hjob eq_refl eq_refl eq_refl)
    as (s0 & s & _ & H2 & H3 & _).
  exists s. exact (conj H2 H3).
Defined.

Lemma strip_amount_skips s1 c s2 :
  JS.keep_amount_char c = false ->
  JS.strip_amount (s1 +:+ String c s2) = JS.strip_amount (s1 +:+ s2).
Proof.
  intros Hc. induction s1 as [|a s1 IH]; simpl.
  - rewrite Hc. reflexivity.
  - rewrite IH. reflexivity.
Qed.

(** X24.  Characters other than digits, ['.'] and ['-'] in the amount
    cell do not matter: removing one (a currency sign, a space, a
    thousands separator) leaves the parsed amount the same. *)
Theorem ignored_character_keeps_amount
    (row : gmap string string) (mapping : ColumnMapping)
    (s1 s2 : string) (c : ascii) :
  row !! m_amount mapping = Some (s1 +:+ String c s2) ->
  JS.keep_amount_char c = false ->
  parse_amount row mapping
  = parse_amount (<[m_amount mapping := s1 +:+ s2]> row) mapping.
Proof.
  intros Hrow Hc. unfold parse_amount.
  rewrite Hrow, lookup_insert_eq. simpl.
  rewrite (strip_amount_skips s1 c s2 Hc). reflexivity.
Qed.

Lemma ignored_character_keeps_amount_witness :
  parse_amount
    (ImportScenario.csv_row "2024-01-15" "1,234.50" "Rent" "expense" "")
    ImportScenario.csv_mapping
  = parse_amount
      (<["Amount" := "1234.50"]>
         (ImportScenario.csv_row "2024-01-15" "1,234.50" "Rent" "expense" ""))
      ImportScenario.csv_mapping.
Proof.
  apply (ignored_character_keeps_amount
           (ImportScenario.csv_row "2024-01-15" "1,234.50" "Rent" "expense" "")
           ImportScenario.csv_mapping "1" "234.50" ","%char).
  - vm_compute. reflexivity.
  - reflexivity.
Defined.
